(** * Digi-QR: payload encoding, input validation and the form's state machine

    A shallow embedding of [src/App.tsx]: the pure functions
    [generateQRContent] and [validateInput], the JavaScript string
    primitives they call, and the event handlers that drive the four-cell
    component state ([qrType], [formData], [qrUrl], [error]). *)

From Stdlib Require Import List NArith String Ascii Bool Arith Lia.
Import ListNotations.

(** ** JavaScript strings

    A JavaScript string is a finite sequence of UTF-16 code units; [length],
    [startsWith], [includes], regular expressions without the [u] flag and
    [encodeURIComponent] are all defined on code units. *)

Module JS.

Definition code_unit := N.
Definition js_string := list code_unit.

(** An ASCII literal of the source, as code units. *)
Fixpoint lit (s : string) : js_string :=
  match s with
  | EmptyString => []
  | String a r => N_of_ascii a :: lit r
  end.

(** ToBoolean on a string: only the empty string is falsy. *)
Definition truthy (s : js_string) : bool :=
  match s with
  | [] => false
  | _ :: _ => true
  end.

(** [x || d] for an optional string property [x]. *)
Definition or_else (x : option js_string) (d : js_string) : js_string :=
  match x with
  | Some s => if truthy s then s else d
  | None => d
  end.

(** ToBoolean on an optional string property ([undefined] is falsy). *)
Definition to_boolean (x : option js_string) : bool :=
  match x with
  | Some s => truthy s
  | None => false
  end.

(** ToBoolean on an optional boolean property ([undefined] is falsy). *)
Definition truthy_bool (x : option bool) : bool :=
  match x with
  | Some b => b
  | None => false
  end.

(** [s.startsWith(p)] *)
Fixpoint startsWith (s p : js_string) {struct p} : bool :=
  match p, s with
  | [], _ => true
  | _ :: _, [] => false
  | d :: p', c :: s' => (c =? d)%N && startsWith s' p'
  end.

(** [s.includes(p)]: [p] occurs at some position of [s]. *)
Fixpoint includes (s p : js_string) : bool :=
  startsWith s p ||
  match s with
  | [] => false
  | _ :: s' => includes s' p
  end.

(** Number of positions of [s] at which [p] occurs. *)
Fixpoint occurrences (p s : js_string) : nat :=
  (if startsWith s p then 1 else 0) +
  match s with
  | [] => 0
  | _ :: s' => occurrences p s'
  end.

(** The character class [\s]: WhiteSpace and LineTerminator code points. *)
Definition is_white_space (c : code_unit) : bool :=
  ((9 <=? c) && (c <=? 13) || (c =? 32) || (c =? 160) || (c =? 5760)
   || (8192 <=? c) && (c <=? 8202) || (c =? 8232) || (c =? 8233)
   || (c =? 8239) || (c =? 8287) || (c =? 12288) || (c =? 65279))%N.

(** The class [[\s-()]].  Without the [u] flag a range whose end point is a
    class escape denotes the union of both ends and the hyphen. *)
Definition is_space_hyphen_paren (c : code_unit) : bool :=
  (is_white_space c || (c =? 45) || (c =? 40) || (c =? 41))%N.

(** [s.replace(/[...]/g, r)] for a one-character class [cls]. *)
Fixpoint replace_class_g (cls : code_unit -> bool) (r s : js_string)
  : js_string :=
  match s with
  | [] => []
  | c :: s' =>
      if cls c then r ++ replace_class_g cls r s'
      else c :: replace_class_g cls r s'
  end.

(** [s.replace(/[...]+/g, r)]: every maximal run of class members is one
    match.  [in_run] tells that the previous unit belongs to the match in
    progress. *)
Fixpoint replace_runs_from (cls : code_unit -> bool) (r : js_string)
    (in_run : bool) (s : js_string) : js_string :=
  match s with
  | [] => []
  | c :: s' =>
      if cls c then
        (if in_run then [] else r) ++ replace_runs_from cls r true s'
      else c :: replace_runs_from cls r false s'
  end.

Definition replace_runs_g (cls : code_unit -> bool) (r s : js_string)
  : js_string :=
  replace_runs_from cls r false s.

(** *** Completions: a call returns or throws *)

(** [URIError] is thrown by [encodeURIComponent]; [Error] stands for
    whatever a library call throws or rejects with. *)
Inductive js_error := URIError | Error.

Inductive completion (A : Type) :=
| Normal (a : A)
| Throw (e : js_error).
Arguments Normal {A} a.
Arguments Throw {A} e.

Definition bind {A B} (m : completion A) (k : A -> completion B)
  : completion B :=
  match m with
  | Normal a => k a
  | Throw e => Throw e
  end.

(** *** encodeURIComponent *)

Definition is_alnum (c : code_unit) : bool :=
  ((48 <=? c) && (c <=? 57) || (65 <=? c) && (c <=? 90)
   || (97 <=? c) && (c <=? 122))%N.

(** uriUnescaped: alphanumerics and the marks [- _ . ! ~ * ' ( )]. *)
Definition uri_unescaped (c : code_unit) : bool :=
  (is_alnum c || (c =? 45) || (c =? 95) || (c =? 46) || (c =? 33)
   || (c =? 126) || (c =? 42) || (c =? 39) || (c =? 40) || (c =? 41))%N.

Definition is_lead_surrogate (c : code_unit) : bool :=
  ((55296 <=? c) && (c <=? 56319))%N.

Definition is_trail_surrogate (c : code_unit) : bool :=
  ((56320 <=? c) && (c <=? 57343))%N.

Definition surrogate_pair_to_code_point (hi lo : code_unit) : N :=
  ((hi - 55296) * 1024 + (lo - 56320) + 65536)%N.

Definition hex_digit (n : N) : code_unit :=
  (if n <? 10 then 48 + n else 55 + n)%N.

(** One octet as [%XX], upper-case hexadecimal. *)
Definition percent_octet (b : N) : js_string :=
  [37%N; hex_digit (N.shiftr b 4); hex_digit (N.land b 15)].

Definition continuation (cp : N) (shift : N) : N :=
  N.lor 128 (N.land (N.shiftr cp shift) 63).

Definition utf8 (cp : N) : list N :=
  (if cp <? 128 then [cp]
   else if cp <? 2048 then
     [N.lor 192 (N.shiftr cp 6); continuation cp 0]
   else if cp <? 65536 then
     [N.lor 224 (N.shiftr cp 12); continuation cp 6; continuation cp 0]
   else
     [N.lor 240 (N.shiftr cp 18); continuation cp 12; continuation cp 6;
      continuation cp 0])%N.

Definition percent_encode (cp : N) : js_string :=
  flat_map percent_octet (utf8 cp).

(** Encode(string, uriUnescaped): unescaped units are copied, every other
    code point is written as the percent-escaped octets of its UTF-8 form,
    and an unpaired surrogate throws URIError. *)
Fixpoint encodeURIComponent (s : js_string) : completion js_string :=
  match s with
  | [] => Normal []
  | c :: s' =>
      if uri_unescaped c then
        bind (encodeURIComponent s') (fun r => Normal (c :: r))
      else if is_trail_surrogate c then Throw URIError
      else if is_lead_surrogate c then
        match s' with
        | d :: s'' =>
            if is_trail_surrogate d then
              bind (encodeURIComponent s'') (fun r =>
                Normal (percent_encode (surrogate_pair_to_code_point c d)
                        ++ r))
            else Throw URIError
        | [] => Throw URIError
        end
      else
        bind (encodeURIComponent s') (fun r => Normal (percent_encode c ++ r))
  end.

(** [s.isWellFormed()]: no unpaired surrogate. *)
Fixpoint isWellFormed (s : js_string) : bool :=
  match s with
  | [] => true
  | c :: s' =>
      if is_trail_surrogate c then false
      else if is_lead_surrogate c then
        match s' with
        | d :: s'' => is_trail_surrogate d && isWellFormed s''
        | [] => false
        end
      else isWellFormed s'
  end.

End JS.

Import JS.

Notation "x <- m ;; k" := (bind m (fun x => k))
  (at level 61, m at next level, right associativity).

(** ** The component *)

Inductive QRType := Url | Text | Email | Wifi | Phone.

(** The select's value: [None] is the empty option ['']. *)
Definition QRChoice := option QRType.

Record FormData := mkFormData {
  url : option js_string;
  text : option js_string;
  email : option js_string;
  emailSubject : option js_string;
  emailBody : option js_string;
  ssid : option js_string;
  password : option js_string;
  hidden : option bool;
  phone : option js_string
}.

(** The object literal [{}]. *)
Definition emptyForm : FormData :=
  mkFormData None None None None None None None None None.

Definition generateQRContent (type : QRChoice) (data : FormData)
  : completion js_string :=
  match type with
  | Some Wifi =>
      Normal (lit "WIFI:T:WPA;S:" ++ or_else (ssid data) []
              ++ lit ";P:" ++ or_else (password data) []
              ++ lit ";H:"
              ++ (if truthy_bool (hidden data) then lit "true"
                  else lit "false")
              ++ lit ";;")
  | Some Email =>
      let email := or_else (email data) [] in
      subject <- encodeURIComponent (or_else (emailSubject data) []) ;;
      body <- encodeURIComponent (or_else (emailBody data) []) ;;
      let mailtoLink := lit "mailto:" ++ email in
      let mailtoLink :=
        if truthy subject || truthy body then
          let mailtoLink := mailtoLink ++ lit "?" in
          let mailtoLink :=
            if truthy subject then mailtoLink ++ lit "subject=" ++ subject
            else mailtoLink in
          if truthy body then
            mailtoLink ++ (if truthy subject then lit "&" else [])
            ++ lit "body=" ++ body
          else mailtoLink
        else mailtoLink in
      Normal mailtoLink
  | Some Phone =>
      let phoneNumber :=
        replace_runs_g is_white_space [] (or_else (phone data) []) in
      Normal (lit "tel:" ++ phoneNumber)
  | Some Url =>
      let url := or_else (url data) [] in
      let url :=
        if truthy url && negb (startsWith url (lit "http://"))
           && negb (startsWith url (lit "https://"))
        then lit "https://" ++ url
        else url in
      Normal url
  | Some Text => Normal (or_else (text data) [])
  | None => Normal []
  end.

Definition validateInput (type : QRChoice) (data : FormData) : bool :=
  match type with
  | Some Wifi => to_boolean (ssid data)
  | Some Email =>
      match email data with
      | Some e => truthy e && includes e (lit "@")
      | None => false
      end
  | Some Phone =>
      match phone data with
      | Some p =>
          truthy p
          && (10 <=? List.length (replace_class_g is_space_hyphen_paren [] p))
      | None => false
      end
  | Some Url => to_boolean (url data)
  | Some Text => to_boolean (text data)
  | None => false
  end.

(** ** Component state and handlers *)

Record State := mkState {
  qrType : QRChoice;
  formData : FormData;
  qrUrl : js_string;
  error : js_string
}.

(** The four [useState] initial values. *)
Definition initialState : State := mkState None emptyForm [] [].

Definition with_qrUrl (u : js_string) (st : State) : State :=
  mkState (qrType st) (formData st) u (error st).

Definition with_error (m : js_string) (st : State) : State :=
  mkState (qrType st) (formData st) (qrUrl st) m.

Definition with_formData (d : FormData) (st : State) : State :=
  mkState (qrType st) d (qrUrl st) (error st).

(** The options object handed to [QRCode.toDataURL]. *)
Inductive ErrorCorrectionLevel := EC_L | EC_M | EC_Q | EC_H.

Record RenderOptions := mkRenderOptions {
  width : N;
  margin : N;
  colorDark : js_string;
  colorLight : js_string;
  errorCorrectionLevel : ErrorCorrectionLevel
}.

Definition renderOptions : RenderOptions :=
  mkRenderOptions 300 2 (lit "#000000") (lit "#ffffff") EC_H.

(** The external renderer: the awaited promise resolves with a data URL or
    rejects. *)
Definition Renderer := js_string -> RenderOptions -> completion js_string.

(** What a handler calls, in order. *)
Inductive Call :=
| CallValidate (type : QRChoice) (data : FormData)
| CallEncode (type : QRChoice) (data : FormData)
| CallRender (content : js_string) (opts : RenderOptions)
| CallConsoleError (err : js_error).

(** A handler body: it reads and sets the state cells, records its calls,
    and returns or throws. *)
Definition World := (State * list Call)%type.
Definition Eff (A : Type) := World -> completion A * World.

Definition ret {A} (a : A) : Eff A := fun w => (Normal a, w).

Definition bindE {A B} (m : Eff A) (k : A -> Eff B) : Eff B :=
  fun w =>
    match m w with
    | (Normal a, w') => k a w'
    | (Throw e, w') => (Throw e, w')
    end.

Notation "x <~ m ;; k" := (bindE m (fun x => k))
  (at level 61, m at next level, right associativity).
Notation "m ;;; k" := (bindE m (fun _ => k))
  (at level 61, right associativity).

Definition getState : Eff State := fun w => (Normal (fst w), w).

Definition modify (f : State -> State) : Eff unit :=
  fun w => (Normal tt, (f (fst w), snd w)).

Definition setQrUrl (u : js_string) : Eff unit := modify (with_qrUrl u).
Definition setError (m : js_string) : Eff unit := modify (with_error m).

(** Record the call [c] and complete as [r] does. *)
Definition call {A} (c : Call) (r : completion A) : Eff A :=
  fun w => (r, (fst w, snd w ++ [c])).

Definition try_catch (body : Eff unit) (handler : js_error -> Eff unit)
  : Eff unit :=
  fun w =>
    match body w with
    | (Normal a, w') => (Normal a, w')
    | (Throw e, w') => handler e w'
    end.

Definition msg_invalid : js_string :=
  lit "Please fill in all required fields correctly".

Definition msg_failed : js_string := lit "Failed to generate QR code".

Definition handleSubmit (toDataURL : Renderer) : Eff unit :=
  st <~ getState ;;
  match qrType st with
  | None => ret tt
  | Some _ =>
      try_catch
        (ok <~ call (CallValidate (qrType st) (formData st))
                 (Normal (validateInput (qrType st) (formData st))) ;;
         if negb ok then setError msg_invalid
         else
           content <~ call (CallEncode (qrType st) (formData st))
                        (generateQRContent (qrType st) (formData st)) ;;
           url <~ call (CallRender content renderOptions)
                    (toDataURL content renderOptions) ;;
           setQrUrl url ;;;
           setError [])
        (fun err =>
           setError msg_failed ;;;
           call (CallConsoleError err) (Normal tt))
  end.

(** One generate attempt from state [st]: the state it leaves and the calls
    it made. *)
Definition submit (toDataURL : Renderer) (st : State) : State * list Call :=
  snd (handleSubmit toDataURL (st, [])).

(** The select's [onChange]. *)
Definition selectType (v : QRChoice) (st : State) : State :=
  mkState v emptyForm [] [].

(** The [name] attribute of the rendered inputs. *)
Inductive FieldName :=
| f_url | f_text | f_email | f_emailSubject | f_emailBody | f_ssid
| f_password | f_phone.

(** What [handleInputChange] reads off its event: a text-like input's name
    and value, or the [hidden] checkbox's [checked]. *)
Inductive ChangeEvent :=
| TextChange (name : FieldName) (value : js_string)
| CheckboxChange (checked : bool).

Definition set_field (name : FieldName) (v : js_string) (d : FormData)
  : FormData :=
  match name with
  | f_url => mkFormData (Some v) (text d) (email d) (emailSubject d)
               (emailBody d) (ssid d) (password d) (hidden d) (phone d)
  | f_text => mkFormData (url d) (Some v) (email d) (emailSubject d)
                (emailBody d) (ssid d) (password d) (hidden d) (phone d)
  | f_email => mkFormData (url d) (text d) (Some v) (emailSubject d)
                 (emailBody d) (ssid d) (password d) (hidden d) (phone d)
  | f_emailSubject => mkFormData (url d) (text d) (email d) (Some v)
                        (emailBody d) (ssid d) (password d) (hidden d)
                        (phone d)
  | f_emailBody => mkFormData (url d) (text d) (email d) (emailSubject d)
                     (Some v) (ssid d) (password d) (hidden d) (phone d)
  | f_ssid => mkFormData (url d) (text d) (email d) (emailSubject d)
                (emailBody d) (Some v) (password d) (hidden d) (phone d)
  | f_password => mkFormData (url d) (text d) (email d) (emailSubject d)
                    (emailBody d) (ssid d) (Some v) (hidden d) (phone d)
  | f_phone => mkFormData (url d) (text d) (email d) (emailSubject d)
                 (emailBody d) (ssid d) (password d) (hidden d) (Some v)
  end.

Definition set_hidden (b : bool) (d : FormData) : FormData :=
  mkFormData (url d) (text d) (email d) (emailSubject d) (emailBody d)
    (ssid d) (password d) (Some b) (phone d).

Definition handleInputChange (e : ChangeEvent) (st : State) : State :=
  match e with
  | CheckboxChange checked =>
      with_formData (set_hidden checked (formData st)) st
  | TextChange name value =>
      with_formData (set_field name value (formData st)) st
  end.

(** The inputs [renderDynamicInputs] shows for the selected type. *)
Definition rendered (type : QRChoice) (e : ChangeEvent) : bool :=
  match type, e with
  | Some Url, TextChange f_url _ => true
  | Some Text, TextChange f_text _ => true
  | Some Email, TextChange (f_email | f_emailSubject | f_emailBody) _ => true
  | Some Wifi, TextChange (f_ssid | f_password) _ => true
  | Some Wifi, CheckboxChange _ => true
  | Some Phone, TextChange f_phone _ => true
  | _, _ => false
  end.

(** *** The attempt around its [await]

    [handleSubmit] is an async function: it runs up to
    [await QRCode.toDataURL(...)] within the submit event, and its
    continuation ([setQrUrl], [setError], or the [catch] block) runs when
    the promise settles, possibly after other events. *)

(** Where the submit event leaves the handler. *)
Inductive Suspension :=
| Finished (st' : State) (calls : list Call)
| Awaiting (content : js_string) (calls : list Call).

Definition handleSubmit_until_await (st : State) : Suspension :=
  match qrType st with
  | None => Finished st []
  | Some _ =>
      if negb (validateInput (qrType st) (formData st)) then
        Finished (with_error msg_invalid st)
          [CallValidate (qrType st) (formData st)]
      else
        match generateQRContent (qrType st) (formData st) with
        | Throw err =>
            Finished (with_error msg_failed st)
              [CallValidate (qrType st) (formData st);
               CallEncode (qrType st) (formData st);
               CallConsoleError err]
        | Normal content =>
            Awaiting content
              [CallValidate (qrType st) (formData st);
               CallEncode (qrType st) (formData st);
               CallRender content renderOptions]
        end
  end.

(** The continuation behind the [await], run on the state current when the
    promise settles with [outcome]. *)
Definition handleSubmit_resume (outcome : completion js_string) (st : State)
  : State * list Call :=
  match outcome with
  | Normal url => (with_error [] (with_qrUrl url st), [])
  | Throw err => (with_error msg_failed st, [CallConsoleError err])
  end.

(** The component with its promises in flight: the four state cells and
    the outcome each pending [toDataURL] promise will settle with. *)
Record Config := mkConfig {
  cells : State;
  pending : list (completion js_string)
}.

Definition initialConfig : Config := mkConfig initialState [].

Definition remove_nth {A} (n : nat) (l : list A) : list A :=
  firstn n l ++ skipn (S n) l.

(** The submit event on a configuration. *)
Definition begin_submit (toDataURL : Renderer) (c : Config) : Config :=
  match handleSubmit_until_await (cells c) with
  | Finished st' _ => mkConfig st' (pending c)
  | Awaiting content _ =>
      mkConfig (cells c) (pending c ++ [toDataURL content renderOptions])
  end.

(** User events, the settling of a pending promise, and the transitions
    they cause. *)
Inductive Event :=
| EvSelect (v : QRChoice)
| EvChange (e : ChangeEvent)
| EvSubmit (toDataURL : Renderer)
| EvSettle (n : nat).

Inductive step : Config -> Event -> Config -> Prop :=
| step_select c v :
    step c (EvSelect v) (mkConfig (selectType v (cells c)) (pending c))
| step_change c e :
    rendered (qrType (cells c)) e = true ->
    step c (EvChange e)
      (mkConfig (handleInputChange e (cells c)) (pending c))
| step_submit c toDataURL :
    step c (EvSubmit toDataURL) (begin_submit toDataURL c)
| step_settle c n outcome :
    nth_error (pending c) n = Some outcome ->
    step c (EvSettle n)
      (mkConfig (fst (handleSubmit_resume outcome (cells c)))
         (remove_nth n (pending c))).

Inductive reachable : Config -> Prop :=
| reachable_init : reachable initialConfig
| reachable_step c ev c' : reachable c -> step c ev c' -> reachable c'.

(** ** Specification vocabulary *)

(** The value of an optional string field, absent meaning empty. *)
Definition value_of (x : option js_string) : js_string :=
  match x with
  | Some s => s
  | None => []
  end.

(** [s] with every unit satisfying [cls] removed. *)
Definition without (cls : code_unit -> bool) (s : js_string) : js_string :=
  filter (fun c => negb (cls c)) s.

Definition is_hyphen (c : code_unit) : bool := (c =? 45)%N.
Definition is_paren (c : code_unit) : bool := ((c =? 40) || (c =? 41))%N.

(** [p] is an initial segment of [s]. *)
Definition starts_with (s p : js_string) : Prop := exists r, s = p ++ r.

(** The query component of a mailto link, from the raw subject and body and
    their percent-encoded forms. *)
Definition mailto_query (subject body subject' body' : js_string)
  : js_string :=
  match subject, body with
  | [], [] => []
  | _ :: _, [] => lit "?subject=" ++ subject'
  | [], _ :: _ => lit "?body=" ++ body'
  | _ :: _, _ :: _ => lit "?subject=" ++ subject' ++ lit "&body=" ++ body'
  end.

(** The fixed literal(s) an encoded payload of each type begins with. *)
Definition literal_prefixes (t : QRType) : list js_string :=
  match t with
  | Wifi => [lit "WIFI:"]
  | Email => [lit "mailto:"]
  | Phone => [lit "tel:"]
  | Url => [lit "https://"; lit "http://"]
  | Text => []
  end.

(** The literal an encoded payload of type [t] begins with. *)
Definition leading_literal (t : QRType) (data : FormData) : js_string :=
  match t with
  | Wifi => lit "WIFI:"
  | Email => lit "mailto:"
  | Phone => lit "tel:"
  | Url =>
      if startsWith (value_of (url data)) (lit "http://")
      then lit "http://" else lit "https://"
  | Text => []
  end.

(** The field text the encoder copies into the payload as it is, behind
    the leading literal: network name and password; the address; the phone
    value without whitespace; the url behind its own scheme, if it has
    one. *)
Definition inserted_values (t : QRType) (data : FormData)
  : list js_string :=
  match t with
  | Wifi => [value_of (ssid data); value_of (password data)]
  | Email => [value_of (email data)]
  | Phone => [without is_white_space (value_of (phone data))]
  | Url =>
      if startsWith (value_of (url data)) (lit "http://")
      then [skipn 7 (value_of (url data))]
      else if startsWith (value_of (url data)) (lit "https://")
      then [skipn 8 (value_of (url data))]
      else [value_of (url data)]
  | Text => [value_of (text data)]
  end.

(** Sample records. *)
Definition form_lone_surrogate : FormData :=
  set_field f_emailSubject [55296%N]
    (set_field f_email (lit "a@b.com") emptyForm).

Definition form_email_subject : FormData :=
  set_field f_emailBody []
    (set_field f_emailSubject (lit "Hi")
       (set_field f_email (lit "a@b.com") emptyForm)).

Definition form_wifi_literal : FormData :=
  set_field f_ssid (lit "WIFI:") emptyForm.

Definition form_url_bare : FormData :=
  set_field f_url (lit "example.com") emptyForm.

(** What the component shows: the image block when [qrUrl] is truthy, the
    message block when [error] is. *)
Definition output_displayed (st : State) : bool := truthy (qrUrl st).
Definition error_displayed (st : State) : bool := truthy (error st).

(** Sample renderers and states. *)
Definition renderer_fails : Renderer := fun _ _ => Throw Error.

Definition renderer_ok : Renderer :=
  fun content _ => Normal (lit "data:image/png;base64," ++ content).

Definition state_with_output : State :=
  mkState (Some Url) form_url_bare (lit "data:image/png;base64,OLD") [].

Definition state_phone_short : State :=
  mkState (Some Phone) (set_field f_phone (lit "123-456-789") emptyForm)
    [] [].

(** The five ways an attempt can go. *)
Inductive submit_outcome (toDataURL : Renderer) (st : State)
  : State * list Call -> Prop :=
| outcome_unset :
    qrType st = None ->
    submit_outcome toDataURL st (st, [])
| outcome_rejected :
    qrType st <> None ->
    validateInput (qrType st) (formData st) = false ->
    submit_outcome toDataURL st
      (with_error msg_invalid st, [CallValidate (qrType st) (formData st)])
| outcome_encode_throws e :
    qrType st <> None ->
    validateInput (qrType st) (formData st) = true ->
    generateQRContent (qrType st) (formData st) = Throw e ->
    submit_outcome toDataURL st
      (with_error msg_failed st,
       [CallValidate (qrType st) (formData st);
        CallEncode (qrType st) (formData st);
        CallConsoleError e])
| outcome_render_throws content e :
    qrType st <> None ->
    validateInput (qrType st) (formData st) = true ->
    generateQRContent (qrType st) (formData st) = Normal content ->
    toDataURL content renderOptions = Throw e ->
    submit_outcome toDataURL st
      (with_error msg_failed st,
       [CallValidate (qrType st) (formData st);
        CallEncode (qrType st) (formData st);
        CallRender content renderOptions;
        CallConsoleError e])
| outcome_success content u :
    qrType st <> None ->
    validateInput (qrType st) (formData st) = true ->
    generateQRContent (qrType st) (formData st) = Normal content ->
    toDataURL content renderOptions = Normal u ->
    submit_outcome toDataURL st
      (with_error [] (with_qrUrl u st),
       [CallValidate (qrType st) (formData st);
        CallEncode (qrType st) (formData st);
        CallRender content renderOptions]).

(** Every field that is set belongs to the selected type. *)
Definition fields_within (type : QRChoice) (d : FormData) : Prop :=
  (url d <> None -> type = Some Url)
  /\ (text d <> None -> type = Some Text)
  /\ (email d <> None -> type = Some Email)
  /\ (emailSubject d <> None -> type = Some Email)
  /\ (emailBody d <> None -> type = Some Email)
  /\ (ssid d <> None -> type = Some Wifi)
  /\ (password d <> None -> type = Some Wifi)
  /\ (hidden d <> None -> type = Some Wifi)
  /\ (phone d <> None -> type = Some Phone).

(** ** Rendered inputs *)

(** The form controls [renderDynamicInputs] returns, by the attributes the
    handlers depend on: [name], the controlled [value] (or [checked], for
    the [hidden] checkbox) and [required]. *)
Inductive Input :=
| TextInput (name : FieldName) (value : js_string) (required : bool)
| Checkbox (checked : bool).

Definition renderDynamicInputs (type : QRChoice) (data : FormData)
  : list Input :=
  match type with
  | Some Url => [TextInput f_url (or_else (url data) []) true]
  | Some Text => [TextInput f_text (or_else (text data) []) true]
  | Some Email =>
      [TextInput f_email (or_else (email data) []) true;
       TextInput f_emailSubject (or_else (emailSubject data) []) false;
       TextInput f_emailBody (or_else (emailBody data) []) false]
  | Some Wifi =>
      [TextInput f_ssid (or_else (ssid data) []) true;
       TextInput f_password (or_else (password data) []) false;
       Checkbox (truthy_bool (hidden data))]
  | Some Phone => [TextInput f_phone (or_else (phone data) []) true]
  | None => []
  end.

(** The change events an input can raise. *)
Definition raises (i : Input) (e : ChangeEvent) : bool :=
  match i, e with
  | TextInput f_url _ _, TextChange f_url _ => true
  | TextInput f_text _ _, TextChange f_text _ => true
  | TextInput f_email _ _, TextChange f_email _ => true
  | TextInput f_emailSubject _ _, TextChange f_emailSubject _ => true
  | TextInput f_emailBody _ _, TextChange f_emailBody _ => true
  | TextInput f_ssid _ _, TextChange f_ssid _ => true
  | TextInput f_password _ _, TextChange f_password _ => true
  | TextInput f_phone _ _, TextChange f_phone _ => true
  | Checkbox _, CheckboxChange _ => true
  | _, _ => false
  end.

(** [data[name]] for a string-valued property. *)
Definition get_field (name : FieldName) (d : FormData)
  : option js_string :=
  match name with
  | f_url => url d
  | f_text => text d
  | f_email => email d
  | f_emailSubject => emailSubject d
  | f_emailBody => emailBody d
  | f_ssid => ssid d
  | f_password => password d
  | f_phone => phone d
  end.

(** An input that is [required] has a non-empty value. *)
Definition filled_if_required (i : Input) : Prop :=
  match i with
  | TextInput _ value true => value <> []
  | _ => True
  end.

(** ** Further vocabulary *)

(** Every unit fits in sixteen bits. *)
Definition code_units (s : js_string) : Prop :=
  Forall (fun c => (c < 65536)%N) s.

(** A unit [encodeURIComponent] may emit: unreserved, or the percent sign
    (the hexadecimal digits it uses are unreserved themselves). *)
Definition uri_component_unit (c : code_unit) : bool :=
  (uri_unescaped c || (c =? 37))%N.

(** How often the unit [c] occurs in [s]. *)
Definition count_unit (c : code_unit) (s : js_string) : nat :=
  List.length (filter (N.eqb c) s).

(** The messages [setError] is ever called with. *)
Definition known_error (m : js_string) : Prop :=
  m = [] \/ m = msg_invalid \/ m = msg_failed.

Definition is_render_call (c : Call) : bool :=
  match c with
  | CallRender _ _ => true
  | _ => false
  end.

Definition state_email_lone_surrogate : State :=
  mkState (Some Email) form_lone_surrogate [] [].

(** ** String primitives *)

Ltac bool_to_prop :=
  repeat rewrite ?orb_true_iff, ?andb_true_iff, ?orb_false_iff,
    ?andb_false_iff, ?N.leb_le, ?N.leb_gt, ?N.eqb_eq, ?N.eqb_neq,
    ?N.ltb_lt, ?N.ltb_ge in *.

Lemma or_else_empty (x : option js_string) : or_else x [] = value_of x.
Proof. destruct x as [[|c s]|]; reflexivity. Qed.

Lemma truthy_nonempty (s : js_string) : truthy s = true <-> s <> [].
Proof. destruct s; simpl; split; congruence. Qed.

Lemma startsWith_iff (s p : js_string) :
  startsWith s p = true <-> starts_with s p.
Proof.
  unfold starts_with. revert s.
  induction p as [|d p IH]; intros s; simpl.
  - split; [exists s; reflexivity | trivial].
  - destruct s as [|c s].
    + split; [discriminate | intros [r Hr]; discriminate].
    + rewrite andb_true_iff, N.eqb_eq, IH. split.
      * intros [-> [r ->]]. exists r. reflexivity.
      * intros [r Hr]. injection Hr as -> ->. split; [reflexivity | eauto].
Qed.

Lemma startsWith_app (p r : js_string) : startsWith (p ++ r) p = true.
Proof. apply startsWith_iff. exists r. reflexivity. Qed.

Lemma includes_unit (s : js_string) (c : code_unit) :
  includes s [c] = true <-> In c s.
Proof.
  induction s as [|a s IH]; simpl.
  - split; [discriminate | tauto].
  - rewrite orb_true_iff, andb_true_r, N.eqb_eq, IH. tauto.
Qed.

Lemma replace_class_g_empty (cls : code_unit -> bool) (s : js_string) :
  replace_class_g cls [] s = without cls s.
Proof.
  induction s as [|c s IH]; simpl; [reflexivity|].
  destruct (cls c); simpl; rewrite IH; reflexivity.
Qed.

Lemma replace_runs_from_empty (cls : code_unit -> bool) (b : bool)
    (s : js_string) :
  replace_runs_from cls [] b s = without cls s.
Proof.
  revert b. induction s as [|c s IH]; intros b; simpl; [reflexivity|].
  destruct (cls c); simpl.
  - destruct b; simpl; apply IH.
  - rewrite IH. reflexivity.
Qed.

Lemma replace_runs_g_empty (cls : code_unit -> bool) (s : js_string) :
  replace_runs_g cls [] s = without cls s.
Proof. apply replace_runs_from_empty. Qed.

Lemma is_space_hyphen_paren_spec (c : code_unit) :
  is_space_hyphen_paren c = is_white_space c || is_hyphen c || is_paren c.
Proof.
  unfold is_space_hyphen_paren, is_hyphen, is_paren.
  rewrite !orb_assoc. reflexivity.
Qed.

Lemma without_ext (f g : code_unit -> bool) (s : js_string) :
  (forall c, f c = g c) -> without f s = without g s.
Proof.
  intros Hfg. unfold without. apply filter_ext.
  intros c. rewrite Hfg. reflexivity.
Qed.

Lemma without_clean (cls : code_unit -> bool) (s : js_string)
    (c : code_unit) :
  In c (without cls s) <-> In c s /\ cls c = false.
Proof.
  unfold without. rewrite filter_In, negb_true_iff. reflexivity.
Qed.

(** ** The Validator *)

Lemma validate_nonempty_field (x : option js_string) :
  to_boolean x = true <-> value_of x <> [].
Proof.
  destruct x as [s|]; simpl.
  - apply truthy_nonempty.
  - split; [discriminate | intros Hne; contradiction].
Qed.

Lemma validate_email_rule (data : FormData) :
  validateInput (Some Email) data = true <->
  value_of (email data) <> [] /\ In 64%N (value_of (email data)).
Proof.
  simpl. destruct (email data) as [e|]; simpl.
  - rewrite andb_true_iff, truthy_nonempty, includes_unit. reflexivity.
  - split; [discriminate | intros [Hne _]; contradiction].
Qed.

Lemma validate_phone_rule (data : FormData) :
  validateInput (Some Phone) data = true <->
  10 <= List.length
          (without (fun c => is_white_space c || is_hyphen c || is_paren c)
             (value_of (phone data))).
Proof.
  unfold validateInput. destruct (phone data) as [p|]; cbn [value_of].
  - rewrite replace_class_g_empty.
    rewrite (without_ext _ _ _ is_space_hyphen_paren_spec).
    rewrite andb_true_iff, Nat.leb_le. split.
    + intros [_ Hlen]. exact Hlen.
    + intros Hlen. split; [|exact Hlen].
      destruct p; [simpl in Hlen; lia | reflexivity].
  - split; [discriminate | simpl; lia].
Qed.

Lemma validate_empty_form (type : QRChoice) :
  validateInput type emptyForm = false.
Proof. destruct type as [[| | | |]|]; reflexivity. Qed.

(** C1.  [validateInput] accepts exactly under the per-type rule: Wifi iff
    [ssid] is non-empty; Email iff [email] is non-empty and contains ['@'];
    Phone iff [phone] without its whitespace, hyphens and parentheses has at
    least ten code units; Url iff [url] is non-empty; Text iff [text] is
    non-empty.  An unset type is rejected, and so is the empty record under
    every type. *)
Theorem validateInput_rules (data : FormData) :
  (validateInput (Some Wifi) data = true <-> value_of (ssid data) <> [])
  /\ (validateInput (Some Email) data = true <->
        value_of (email data) <> [] /\ In 64%N (value_of (email data)))
  /\ (validateInput (Some Phone) data = true <->
        10 <= List.length
                (without (fun c => is_white_space c || is_hyphen c
                                   || is_paren c)
                   (value_of (phone data))))
  /\ (validateInput (Some Url) data = true <-> value_of (url data) <> [])
  /\ (validateInput (Some Text) data = true <-> value_of (text data) <> [])
  /\ validateInput None data = false
  /\ (forall type, validateInput type emptyForm = false).
Proof.
  split; [apply validate_nonempty_field|].
  split; [apply validate_email_rule|].
  split; [apply validate_phone_rule|].
  split; [apply validate_nonempty_field|].
  split; [apply validate_nonempty_field|].
  split; [reflexivity | apply validate_empty_form].
Qed.

Example validate_phone_nine_digits :
  validateInput (Some Phone)
    (set_field f_phone (lit "123-456-789") emptyForm) = false.
Proof. reflexivity. Qed.

Example validate_phone_separators_ignored :
  validateInput (Some Phone)
    (set_field f_phone (lit "(123) 456-7890") emptyForm) = true.
Proof. reflexivity. Qed.

Example validate_email_needs_at :
  validateInput (Some Email) (set_field f_email (lit "a.b.com") emptyForm)
  = false.
Proof. reflexivity. Qed.

(** ** The Encoder: Wifi, Phone, Url *)

Lemma generateQRContent_wifi (data : FormData) :
  generateQRContent (Some Wifi) data =
  Normal (lit "WIFI:T:WPA;S:" ++ value_of (ssid data)
          ++ lit ";P:" ++ value_of (password data)
          ++ lit ";H:"
          ++ match hidden data with
             | Some true => lit "true"
             | Some false | None => lit "false"
             end
          ++ lit ";;").
Proof.
  unfold generateQRContent. rewrite !or_else_empty.
  destruct (hidden data) as [[|]|]; reflexivity.
Qed.

(** C2.  The Wifi payload is the fixed template around the verbatim [ssid]
    and [password]; an absent [ssid] or [password] counts as empty and an
    absent [hidden] as false. *)
Theorem encode_wifi_template (data : FormData) :
  generateQRContent (Some Wifi) data =
  Normal (lit "WIFI:T:WPA;S:" ++ value_of (ssid data)
          ++ lit ";P:" ++ value_of (password data)
          ++ lit ";H:"
          ++ (if match hidden data with Some b => b | None => false end
              then lit "true" else lit "false")
          ++ lit ";;").
Proof.
  rewrite generateQRContent_wifi.
  destruct (hidden data) as [[|]|]; reflexivity.
Qed.

Example encode_wifi_home :
  generateQRContent (Some Wifi)
    (set_hidden true
       (set_field f_password (lit "secret")
          (set_field f_ssid (lit "Home") emptyForm)))
  = Normal (lit "WIFI:T:WPA;S:Home;P:secret;H:true;;").
Proof. reflexivity. Qed.

Example encode_wifi_no_escaping :
  generateQRContent (Some Wifi)
    (set_field f_password (lit "p\q,r")
       (set_field f_ssid (lit "a;b") emptyForm))
  = Normal (lit "WIFI:T:WPA;S:a;b;P:p\q,r;H:false;;").
Proof. reflexivity. Qed.

Lemma generateQRContent_phone (data : FormData) :
  generateQRContent (Some Phone) data =
  Normal (lit "tel:" ++ without is_white_space (value_of (phone data))).
Proof.
  unfold generateQRContent. cbv zeta.
  rewrite or_else_empty, replace_runs_g_empty. reflexivity.
Qed.

(** C5.  The Phone payload is ['tel:'] followed by [phone] with its
    whitespace units removed and nothing else: hyphens and parentheses are
    not whitespace, and the units kept are exactly the non-whitespace units
    of the value, in their order. *)
Theorem encode_phone_strips_whitespace_only (data : FormData) :
  generateQRContent (Some Phone) data =
    Normal (lit "tel:" ++ without is_white_space (value_of (phone data)))
  /\ is_white_space 45%N = false
  /\ is_white_space 40%N = false
  /\ is_white_space 41%N = false
  /\ (forall c, In c (without is_white_space (value_of (phone data))) <->
                In c (value_of (phone data)) /\ is_white_space c = false).
Proof.
  split; [apply generateQRContent_phone|].
  repeat (split; [reflexivity|]). intros c. apply without_clean.
Qed.

Example encode_phone_spaces :
  generateQRContent (Some Phone)
    (set_field f_phone (lit "123 456 7890") emptyForm)
  = Normal (lit "tel:1234567890").
Proof. reflexivity. Qed.

Example encode_phone_keeps_separators :
  generateQRContent (Some Phone)
    (set_field f_phone (lit "(123) 456-7890") emptyForm)
  = Normal (lit "tel:(123)456-7890").
Proof. reflexivity. Qed.

Lemma generateQRContent_url (data : FormData) :
  generateQRContent (Some Url) data =
  Normal (if truthy (value_of (url data))
             && negb (startsWith (value_of (url data)) (lit "http://"))
             && negb (startsWith (value_of (url data)) (lit "https://"))
          then lit "https://" ++ value_of (url data)
          else value_of (url data)).
Proof.
  unfold generateQRContent. cbv zeta. rewrite or_else_empty. reflexivity.
Qed.

(** C4.  The Url payload is the [url] value itself when it starts with
    ['http://'] or ['https://'], ['https://'] followed by the value when it
    is non-empty and starts with neither, and the empty string when the
    value is empty or absent. *)
Theorem encode_url_scheme (data : FormData) :
  ((starts_with (value_of (url data)) (lit "http://")
    \/ starts_with (value_of (url data)) (lit "https://")) ->
   generateQRContent (Some Url) data = Normal (value_of (url data)))
  /\ (value_of (url data) <> [] ->
      ~ starts_with (value_of (url data)) (lit "http://") ->
      ~ starts_with (value_of (url data)) (lit "https://") ->
      generateQRContent (Some Url) data =
      Normal (lit "https://" ++ value_of (url data)))
  /\ (value_of (url data) = [] ->
      generateQRContent (Some Url) data = Normal []).
Proof.
  rewrite generateQRContent_url.
  set (u := value_of (url data)).
  repeat split.
  - intros [Hp | Hp]; apply startsWith_iff in Hp; rewrite Hp;
      rewrite ?andb_false_r; reflexivity.
  - intros Hne Hhttp Hhttps.
    apply truthy_nonempty in Hne. rewrite Hne.
    destruct (startsWith u (lit "http://")) eqn:E1.
    { exfalso. apply Hhttp, startsWith_iff, E1. }
    destruct (startsWith u (lit "https://")) eqn:E2.
    { exfalso. apply Hhttps, startsWith_iff, E2. }
    reflexivity.
  - intros ->. reflexivity.
Qed.

Lemma encode_url_scheme_witness :
  generateQRContent (Some Url)
    (set_field f_url (lit "http://example.com") emptyForm)
  = Normal (lit "http://example.com")
  /\ generateQRContent (Some Url)
       (set_field f_url (lit "example.com") emptyForm)
     = Normal (lit "https://example.com")
  /\ generateQRContent (Some Url) emptyForm = Normal [].
Proof.
  split; [|split].
  - apply (proj1 (encode_url_scheme
                    (set_field f_url (lit "http://example.com") emptyForm))).
    left. exists (lit "example.com"). reflexivity.
  - apply (proj1 (proj2 (encode_url_scheme
                    (set_field f_url (lit "example.com") emptyForm)))).
    + discriminate.
    + intros [r Hr]. discriminate Hr.
    + intros [r Hr]. discriminate Hr.
  - apply (proj2 (proj2 (encode_url_scheme emptyForm))). reflexivity.
Defined.

(** ** encodeURIComponent *)

Lemma js_string_pair_ind (P : js_string -> Prop) :
  P [] ->
  (forall c, P [c]) ->
  (forall c d s, P s -> P (d :: s) -> P (c :: d :: s)) ->
  forall s, P s.
Proof.
  intros Hnil Hone Hcons s.
  enough (Hboth : P s /\ forall c, P (c :: s)) by apply Hboth.
  induction s as [|d s [IHs IHc]].
  - split; [exact Hnil | exact Hone].
  - split; [apply IHc|]. intros c. apply Hcons; [exact IHs | apply IHc].
Qed.

Lemma encodeURIComponent_cons (c : code_unit) (s : js_string) :
  encodeURIComponent (c :: s) =
  if uri_unescaped c then
    bind (encodeURIComponent s) (fun r => Normal (c :: r))
  else if is_trail_surrogate c then Throw URIError
  else if is_lead_surrogate c then
    match s with
    | d :: s' =>
        if is_trail_surrogate d then
          bind (encodeURIComponent s') (fun r =>
            Normal (percent_encode (surrogate_pair_to_code_point c d) ++ r))
        else Throw URIError
    | [] => Throw URIError
    end
  else bind (encodeURIComponent s) (fun r => Normal (percent_encode c ++ r)).
Proof. reflexivity. Qed.

Lemma isWellFormed_cons (c : code_unit) (s : js_string) :
  isWellFormed (c :: s) =
  if is_trail_surrogate c then false
  else if is_lead_surrogate c then
    match s with
    | d :: s' => is_trail_surrogate d && isWellFormed s'
    | [] => false
    end
  else isWellFormed s.
Proof. reflexivity. Qed.

Lemma uri_unescaped_ascii (c : code_unit) :
  uri_unescaped c = true -> (c < 128)%N.
Proof. unfold uri_unescaped, is_alnum. bool_to_prop. lia. Qed.

Lemma uri_unescaped_not_surrogate (c : code_unit) :
  uri_unescaped c = true ->
  is_trail_surrogate c = false /\ is_lead_surrogate c = false.
Proof.
  intros Hc. apply uri_unescaped_ascii in Hc.
  unfold is_trail_surrogate, is_lead_surrogate. bool_to_prop. lia.
Qed.

Lemma percent_encode_head (cp : N) :
  exists t, percent_encode cp = 37%N :: t.
Proof.
  unfold percent_encode, utf8.
  destruct (cp <? 128)%N; [simpl; eauto|].
  destruct (cp <? 2048)%N; [simpl; eauto|].
  destruct (cp <? 65536)%N; simpl; eauto.
Qed.

(** The encoded string is empty exactly when the input is. *)
Lemma encodeURIComponent_truthy (s r : js_string) :
  encodeURIComponent s = Normal r -> truthy r = truthy s.
Proof.
  destruct s as [|c s]; [intros [= <-]; reflexivity|].
  rewrite encodeURIComponent_cons.
  pose proof (percent_encode_head c) as [t Ht].
  destruct (uri_unescaped c).
  { destruct (encodeURIComponent s); simpl; intros [= <-]; reflexivity. }
  destruct (is_trail_surrogate c); [discriminate|].
  destruct (is_lead_surrogate c).
  - destruct s as [|d s]; [discriminate|].
    destruct (is_trail_surrogate d); [|discriminate].
    pose proof (percent_encode_head (surrogate_pair_to_code_point c d))
      as [t' Ht'].
    destruct (encodeURIComponent s); simpl; intros [= <-].
    rewrite Ht'. reflexivity.
  - destruct (encodeURIComponent s); simpl; intros [= <-].
    rewrite Ht. reflexivity.
Qed.

(** [encodeURIComponent] returns on well-formed strings and throws
    [URIError] on the others. *)
Lemma encodeURIComponent_outcome (s : js_string) :
  match encodeURIComponent s with
  | Normal _ => isWellFormed s = true
  | Throw e => e = URIError /\ isWellFormed s = false
  end.
Proof.
  induction s as [|c|c d s IHs IHd] using js_string_pair_ind.
  - reflexivity.
  - rewrite encodeURIComponent_cons, isWellFormed_cons.
    destruct (uri_unescaped c) eqn:Hc.
    { apply uri_unescaped_not_surrogate in Hc as [-> ->]. reflexivity. }
    destruct (is_trail_surrogate c); [split; reflexivity|].
    destruct (is_lead_surrogate c); [split; reflexivity | reflexivity].
  - rewrite encodeURIComponent_cons, isWellFormed_cons.
    destruct (uri_unescaped c) eqn:Hc.
    { apply uri_unescaped_not_surrogate in Hc as [-> ->].
      destruct (encodeURIComponent (d :: s)); exact IHd. }
    destruct (is_trail_surrogate c); [split; reflexivity|].
    destruct (is_lead_surrogate c).
    + destruct (is_trail_surrogate d); [|split; reflexivity].
      destruct (encodeURIComponent s); exact IHs.
    + destruct (encodeURIComponent (d :: s)); exact IHd.
Qed.

Lemma encodeURIComponent_returns (s : js_string) :
  isWellFormed s = true -> exists r, encodeURIComponent s = Normal r.
Proof.
  intros Hwf. pose proof (encodeURIComponent_outcome s) as Hs.
  destruct (encodeURIComponent s) as [r|e]; [eauto|].
  destruct Hs as [_ Hs]. congruence.
Qed.

Lemma encodeURIComponent_throws (s : js_string) :
  isWellFormed s = false -> encodeURIComponent s = Throw URIError.
Proof.
  intros Hwf. pose proof (encodeURIComponent_outcome s) as Hs.
  destruct (encodeURIComponent s) as [r|e]; [congruence|].
  destruct Hs as [-> _]. reflexivity.
Qed.

Example encodeURIComponent_space_amp :
  encodeURIComponent (lit "Hi there & you")
  = Normal (lit "Hi%20there%20%26%20you").
Proof. reflexivity. Qed.

Example encodeURIComponent_euro :
  encodeURIComponent [8364%N] = Normal (lit "%E2%82%AC").
Proof. reflexivity. Qed.

Example encodeURIComponent_surrogate_pair :
  encodeURIComponent [55357%N; 56832%N] = Normal (lit "%F0%9F%98%80").
Proof. reflexivity. Qed.

(** ** The Encoder: Email *)

Lemma mailto_assemble (email subject body subject' body' : js_string) :
  truthy subject' = truthy subject ->
  truthy body' = truthy body ->
  (if truthy subject' || truthy body' then
     if truthy body' then
       (if truthy subject'
        then (lit "mailto:" ++ email) ++ lit "?" ++ lit "subject=" ++ subject'
        else (lit "mailto:" ++ email) ++ lit "?")
       ++ (if truthy subject' then lit "&" else []) ++ lit "body=" ++ body'
     else
       if truthy subject'
       then (lit "mailto:" ++ email) ++ lit "?" ++ lit "subject=" ++ subject'
       else (lit "mailto:" ++ email) ++ lit "?"
   else lit "mailto:" ++ email)
  = lit "mailto:" ++ email ++ mailto_query subject body subject' body'.
Proof.
  intros Hs Hb.
  destruct subject, body, subject', body'; try discriminate;
    cbn [truthy orb mailto_query];
    repeat rewrite <- app_assoc; try rewrite app_nil_r; reflexivity.
Qed.

Lemma generateQRContent_email_returns (data : FormData) :
  isWellFormed (value_of (emailSubject data)) = true ->
  isWellFormed (value_of (emailBody data)) = true ->
  exists subject' body',
    encodeURIComponent (value_of (emailSubject data)) = Normal subject'
    /\ encodeURIComponent (value_of (emailBody data)) = Normal body'
    /\ generateQRContent (Some Email) data =
       Normal (lit "mailto:" ++ value_of (email data)
               ++ mailto_query (value_of (emailSubject data))
                    (value_of (emailBody data)) subject' body').
Proof.
  unfold generateQRContent. cbv zeta. rewrite !or_else_empty.
  intros Hs Hb.
  destruct (encodeURIComponent_returns _ Hs) as [subject' Es].
  destruct (encodeURIComponent_returns _ Hb) as [body' Eb].
  exists subject', body'. rewrite Es, Eb. cbn [bind].
  repeat split. f_equal.
  rewrite <- (mailto_assemble (value_of (email data))
                (value_of (emailSubject data)) (value_of (emailBody data))
                subject' body')
    by (apply encodeURIComponent_truthy; assumption).
  destruct (truthy subject'), (truthy body'); cbn [orb];
    repeat rewrite <- app_assoc; reflexivity.
Qed.

Lemma generateQRContent_email_throws (data : FormData) :
  isWellFormed (value_of (emailSubject data)) = false
  \/ isWellFormed (value_of (emailBody data)) = false ->
  generateQRContent (Some Email) data = Throw URIError.
Proof.
  unfold generateQRContent. cbv zeta. rewrite !or_else_empty.
  intros [Hs | Hb].
  - rewrite (encodeURIComponent_throws _ Hs). reflexivity.
  - rewrite (encodeURIComponent_throws _ Hb).
    pose proof (encodeURIComponent_outcome (value_of (emailSubject data)))
      as Ho.
    destruct (encodeURIComponent (value_of (emailSubject data))) as [r|e];
      cbn [bind]; [reflexivity|].
    destruct Ho as [-> _]. reflexivity.
Qed.

(** C3 (amended).  When [emailSubject] and [emailBody] hold no unpaired
    surrogate, the Email payload is ['mailto:'] and the verbatim [email],
    with no query when subject and body are both empty and otherwise ['?'],
    ['subject='] and the percent-encoded subject if the subject is
    non-empty, ['body='] and the percent-encoded body if the body is
    non-empty, the two joined by ['&'].  When either holds an unpaired
    surrogate the encoder throws [URIError]. *)
Theorem encode_email_mailto (data : FormData) :
  (isWellFormed (value_of (emailSubject data)) = true ->
   isWellFormed (value_of (emailBody data)) = true ->
   exists subject' body',
     encodeURIComponent (value_of (emailSubject data)) = Normal subject'
     /\ encodeURIComponent (value_of (emailBody data)) = Normal body'
     /\ generateQRContent (Some Email) data =
        Normal (lit "mailto:" ++ value_of (email data)
                ++ mailto_query (value_of (emailSubject data))
                     (value_of (emailBody data)) subject' body'))
  /\ (isWellFormed (value_of (emailSubject data)) = false
      \/ isWellFormed (value_of (emailBody data)) = false ->
      generateQRContent (Some Email) data = Throw URIError).
Proof.
  split.
  - apply generateQRContent_email_returns.
  - apply generateQRContent_email_throws.
Qed.

Lemma encode_email_mailto_witness :
  (exists subject' body',
     encodeURIComponent (value_of (emailSubject form_email_subject))
     = Normal subject'
     /\ encodeURIComponent (value_of (emailBody form_email_subject))
        = Normal body'
     /\ generateQRContent (Some Email) form_email_subject =
        Normal (lit "mailto:" ++ value_of (email form_email_subject)
                ++ mailto_query (value_of (emailSubject form_email_subject))
                     (value_of (emailBody form_email_subject))
                     subject' body'))
  /\ generateQRContent (Some Email) form_lone_surrogate = Throw URIError.
Proof.
  split.
  - apply (proj1 (encode_email_mailto form_email_subject)); reflexivity.
  - apply (proj2 (encode_email_mailto form_lone_surrogate)).
    left. reflexivity.
Defined.

(** C3 as written fails on a subject that holds an unpaired surrogate: the
    encoder throws and yields no string at all. *)
Lemma encode_email_lone_surrogate_no_string :
  generateQRContent (Some Email) form_lone_surrogate = Throw URIError
  /\ ~ (exists payload,
          generateQRContent (Some Email) form_lone_surrogate
          = Normal payload).
Proof.
  split; [reflexivity|]. intros [payload Hp]. discriminate Hp.
Qed.

Example encode_email_subject_only :
  generateQRContent (Some Email) form_email_subject
  = Normal (lit "mailto:a@b.com?subject=Hi").
Proof. reflexivity. Qed.

Example encode_email_no_query :
  generateQRContent (Some Email)
    (set_field f_email (lit "a@b.com") emptyForm)
  = Normal (lit "mailto:a@b.com").
Proof. reflexivity. Qed.

Example encode_email_body_only :
  generateQRContent (Some Email)
    (set_field f_emailBody (lit "see you")
       (set_field f_email (lit "a@b.com") emptyForm))
  = Normal (lit "mailto:a@b.com?body=see%20you").
Proof. reflexivity. Qed.

Example encode_email_subject_and_body :
  generateQRContent (Some Email)
    (set_field f_emailBody (lit "a&b")
       (set_field f_emailSubject (lit "Hi")
          (set_field f_email (lit "a@b.com") emptyForm)))
  = Normal (lit "mailto:a@b.com?subject=Hi&body=a%26b").
Proof. reflexivity. Qed.

(** ** Literal prefixes of the payload *)

(** None of the five literals overlaps a shifted copy of itself, so behind
    the leading copy only the remainder can contribute occurrences. *)
Lemma occurrences_literal (p rest : js_string) :
  In p [lit "WIFI:"; lit "mailto:"; lit "tel:"; lit "https://";
        lit "http://"] ->
  occurrences p (p ++ rest) = S (occurrences p rest).
Proof.
  intros Hp. simpl in Hp.
  destruct Hp as [<- | [<- | [<- | [<- | [<- | []]]]]]; reflexivity.
Qed.

Lemma encode_url_fixpoint (data : FormData) (s : js_string) :
  generateQRContent (Some Url) data = Normal s ->
  generateQRContent (Some Url) (set_field f_url s data) = Normal s.
Proof.
  rewrite !generateQRContent_url.
  replace (value_of (url (set_field f_url s data))) with s by reflexivity.
  generalize (value_of (url data)) as u. intros u.
  generalize (startsWith_app (lit "https://") u).
  generalize (lit "https://") as https, (lit "http://") as http.
  intros https http Happ.
  destruct (startsWith u http) eqn:E1.
  { rewrite andb_false_r. cbn [andb]. intros [= <-].
    rewrite E1, andb_false_r. reflexivity. }
  destruct (startsWith u https) eqn:E2.
  { rewrite andb_false_r. intros [= <-].
    rewrite E2, andb_false_r. reflexivity. }
  destruct (truthy u) eqn:Eu; cbn [andb negb]; intros [= <-].
  - rewrite Happ, andb_false_r. reflexivity.
  - rewrite Eu. reflexivity.
Qed.

Lemma startsWith_separator (c : code_unit) (p x y : js_string) :
  ~ In c p -> startsWith (x ++ c :: y) p = startsWith x p.
Proof.
  revert x. induction p as [|d p IH]; intros x Hc; [reflexivity|].
  destruct x as [|a x]; cbn [app startsWith].
  - destruct (N.eqb_spec c d) as [-> | Hne]; [|reflexivity].
    exfalso. apply Hc. left. reflexivity.
  - rewrite IH; [reflexivity|]. intros Hin. apply Hc. right. exact Hin.
Qed.

(** A unit foreign to [p] splits the search: no occurrence of [p] runs
    across it. *)
Lemma occurrences_separator (c : code_unit) (p x y : js_string) :
  ~ In c p ->
  occurrences p (x ++ c :: y) = occurrences p x + occurrences p y.
Proof.
  intros Hc. induction x as [|a x IH].
  - cbn [app occurrences].
    rewrite (startsWith_separator c p [] y Hc : startsWith (c :: y) p = _).
    lia.
  - change ((a :: x) ++ c :: y) with (a :: (x ++ c :: y)).
    cbn [occurrences]. rewrite IH.
    rewrite (startsWith_separator c p (a :: x) y Hc
             : startsWith (a :: x ++ c :: y) p = _).
    lia.
Qed.

(** A string that lacks a unit of [p] holds no occurrence of [p]. *)
Lemma occurrences_absent_unit (c : code_unit) (p x : js_string) :
  In c p -> ~ In c x -> occurrences p x = 0.
Proof.
  intros Hp. induction x as [|a x IH]; intros Hx.
  - destruct p as [|d p]; [contradiction | reflexivity].
  - cbn [occurrences]. rewrite IH by (intros Hin; apply Hx; right; exact Hin).
    destruct (startsWith (a :: x) p) eqn:Hs; [|reflexivity].
    exfalso. apply startsWith_iff in Hs as [r Hr]. apply Hx. rewrite Hr.
    apply in_or_app. left. exact Hp.
Qed.

Lemma includes_occurrences (s p : js_string) :
  includes s p = false <-> occurrences p s = 0.
Proof.
  induction s as [|a s IH]; cbn [includes occurrences].
  - rewrite orb_false_r. destruct (startsWith [] p); split;
      (discriminate || reflexivity).
  - rewrite orb_false_iff, IH.
    destruct (startsWith (a :: s) p); split; intros H;
      try (destruct H; discriminate); try discriminate;
      try (split; [reflexivity | lia]); try (destruct H as [_ H]; lia).
Qed.

Lemma list_sum_cons (n : nat) (l : list nat) :
  list_sum (n :: l) = n + list_sum l.
Proof. reflexivity. Qed.

Lemma literal_once_iff (p s : js_string) (values : list js_string) :
  occurrences p s = 1 + list_sum (map (occurrences p) values) ->
  (occurrences p s = 1 <->
   Forall (fun v => includes v p = false) values).
Proof.
  intros ->.
  assert (Hsum : list_sum (map (occurrences p) values) = 0 <->
                 Forall (fun v => includes v p = false) values).
  { induction values as [|v values IH]; cbn [map];
      rewrite ?list_sum_cons.
    - split; [constructor | reflexivity].
    - split.
      + intros Hz. constructor.
        * apply includes_occurrences. lia.
        * apply IH. lia.
      + intros Hall. inversion Hall as [|? ? Hv Hrest]; subst.
        apply includes_occurrences in Hv. apply IH in Hrest. lia. }
  rewrite <- Hsum. lia.
Qed.

Lemma hex_digit_not_colon (n : N) : hex_digit n <> 58%N.
Proof. unfold hex_digit. destruct (n <? 10)%N eqn:E; bool_to_prop; lia. Qed.

Lemma percent_encode_no_colon (cp : N) : ~ In 58%N (percent_encode cp).
Proof.
  unfold percent_encode. rewrite in_flat_map. intros (b & _ & Hb).
  cbn in Hb. destruct Hb as [Hb | [Hb | [Hb | []]]].
  - discriminate Hb.
  - exact (hex_digit_not_colon _ Hb).
  - exact (hex_digit_not_colon _ Hb).
Qed.

(** The encoded string never holds a colon, whatever the input. *)
Lemma encodeURIComponent_no_colon (s : js_string) :
  forall r, encodeURIComponent s = Normal r -> ~ In 58%N r.
Proof.
  induction s as [|c|c d s IHs IHd] using js_string_pair_ind; intros r.
  - intros [= <-] [].
  - rewrite encodeURIComponent_cons. cbn [encodeURIComponent bind].
    destruct (uri_unescaped c) eqn:Hc.
    { intros [= <-] [-> | []]. discriminate Hc. }
    destruct (is_trail_surrogate c); [discriminate|].
    destruct (is_lead_surrogate c); [discriminate|].
    intros [= <-]. rewrite app_nil_r. apply percent_encode_no_colon.
  - rewrite encodeURIComponent_cons.
    destruct (uri_unescaped c) eqn:Hc.
    { destruct (encodeURIComponent (d :: s)) as [r'|]; [|discriminate].
      cbn [bind]. intros [= <-] [-> | Hin]; [discriminate Hc|].
      exact (IHd r' eq_refl Hin). }
    destruct (is_trail_surrogate c); [discriminate|].
    destruct (is_lead_surrogate c).
    + destruct (is_trail_surrogate d); [|discriminate].
      destruct (encodeURIComponent s) as [r'|]; [|discriminate].
      cbn [bind]. intros [= <-] [Hin | Hin]%in_app_or.
      * exact (percent_encode_no_colon _ Hin).
      * exact (IHs r' eq_refl Hin).
    + destruct (encodeURIComponent (d :: s)) as [r'|]; [|discriminate].
      cbn [bind]. intros [= <-] [Hin | Hin]%in_app_or.
      * exact (percent_encode_no_colon _ Hin).
      * exact (IHd r' eq_refl Hin).
Qed.

Lemma occurrences_wifi (network key flag : js_string) :
  flag = lit "true" \/ flag = lit "false" ->
  occurrences (lit "WIFI:")
    (lit "WIFI:T:WPA;S:" ++ network ++ lit ";P:" ++ key ++ lit ";H:"
     ++ flag ++ lit ";;")
  = 1 + (occurrences (lit "WIFI:") network
         + (occurrences (lit "WIFI:") key + 0)).
Proof.
  intros Hflag.
  assert (Hsep : ~ In 59%N (lit "WIFI:")).
  { cbn. intros [H | [H | [H | [H | [H | []]]]]]; discriminate H. }
  change (occurrences (lit "WIFI:")
            (lit "WIFI:T:WPA;S:" ++ network ++ lit ";P:" ++ key ++ lit ";H:"
             ++ flag ++ lit ";;"))
    with (S (occurrences (lit "WIFI:")
               (network ++ 59%N :: (lit "P:" ++ key ++ lit ";H:" ++ flag
                                     ++ lit ";;")))).
  rewrite (occurrences_separator 59%N _ network _ Hsep).
  change (occurrences (lit "WIFI:")
            (lit "P:" ++ key ++ lit ";H:" ++ flag ++ lit ";;"))
    with (occurrences (lit "WIFI:")
            (key ++ 59%N :: (lit "H:" ++ flag ++ lit ";;"))).
  rewrite (occurrences_separator 59%N _ key _ Hsep).
  destruct Hflag as [-> | ->]; cbn [Nat.add]; reflexivity.
Qed.

Lemma occurrences_mailto (address subject body subject' body' : js_string) :
  encodeURIComponent subject = Normal subject' ->
  encodeURIComponent body = Normal body' ->
  occurrences (lit "mailto:")
    (lit "mailto:" ++ address ++ mailto_query subject body subject' body')
  = 1 + (occurrences (lit "mailto:") address + 0).
Proof.
  intros Es Eb.
  pose proof (encodeURIComponent_no_colon _ _ Es) as Hs.
  pose proof (encodeURIComponent_no_colon _ _ Eb) as Hb.
  assert (Hsep : ~ In 63%N (lit "mailto:")).
  { cbn. intros [H | [H | [H | [H | [H | [H | [H | []]]]]]]];
      discriminate H. }
  assert (Hcolon : In 58%N (lit "mailto:")) by (cbn; tauto).
  rewrite occurrences_literal by (cbn; tauto).
  assert (Hrest : forall rest,
            ~ In 58%N rest ->
            occurrences (lit "mailto:") (address ++ 63%N :: rest)
            = occurrences (lit "mailto:") address + 0).
  { intros rest Hrest. rewrite (occurrences_separator 63%N _ _ _ Hsep).
    rewrite (occurrences_absent_unit 58%N _ rest Hcolon Hrest).
    reflexivity. }
  destruct subject, body; cbn [mailto_query].
  - rewrite app_nil_r. lia.
  - change (lit "?body=" ++ body') with (63%N :: lit "body=" ++ body').
    rewrite Hrest; [lia|].
    intros [Hin | Hin]%in_app_or; [|exact (Hb Hin)].
    cbn in Hin. repeat (destruct Hin as [Hin | Hin]; [discriminate Hin|]).
    exact Hin.
  - change (lit "?subject=" ++ subject')
      with (63%N :: lit "subject=" ++ subject').
    rewrite Hrest; [lia|].
    intros [Hin | Hin]%in_app_or; [|exact (Hs Hin)].
    cbn in Hin. repeat (destruct Hin as [Hin | Hin]; [discriminate Hin|]).
    exact Hin.
  - change (lit "?subject=" ++ subject' ++ lit "&body=" ++ body')
      with (63%N :: lit "subject=" ++ subject' ++ lit "&body=" ++ body').
    rewrite Hrest; [lia|].
    intros [Hin | [Hin | [Hin | Hin]%in_app_or]%in_app_or]%in_app_or;
      [| exact (Hs Hin) | | exact (Hb Hin)];
      cbn in Hin;
      repeat (destruct Hin as [Hin | Hin]; [discriminate Hin|]);
      exact Hin.
Qed.

(** C6 (amended).  For a record accepted under Wifi, Email, Phone or Url
    (for Email, with no unpaired surrogate in subject and body) the encoder
    returns a string that begins with the fixed literal of the type, and
    the literal occurs in it once more than it occurs in the values
    inserted as they are: network name and password, the address, the
    phone value without its whitespace, the url behind its own scheme.  So
    the literal is present exactly once if and only if none of these values
    holds it; and a Url payload encoded again is returned as it is. *)
Theorem encode_literal_prefix (t : QRType) (data : FormData) :
  validateInput (Some t) data = true ->
  t <> Text ->
  (t = Email ->
   isWellFormed (value_of (emailSubject data)) = true
   /\ isWellFormed (value_of (emailBody data)) = true) ->
  exists s,
    generateQRContent (Some t) data = Normal s
    /\ In (leading_literal t data) (literal_prefixes t)
    /\ starts_with s (leading_literal t data)
    /\ occurrences (leading_literal t data) s
       = 1 + list_sum (map (occurrences (leading_literal t data))
                         (inserted_values t data))
    /\ (occurrences (leading_literal t data) s = 1 <->
        Forall (fun v => includes v (leading_literal t data) = false)
          (inserted_values t data))
    /\ (t = Url ->
        generateQRContent (Some Url) (set_field f_url s data) = Normal s).
Proof.
  intros Hvalid Htext Hwf.
  assert (Hfinish : forall s,
    generateQRContent (Some t) data = Normal s ->
    In (leading_literal t data) (literal_prefixes t) ->
    starts_with s (leading_literal t data) ->
    occurrences (leading_literal t data) s
    = 1 + list_sum (map (occurrences (leading_literal t data))
                      (inserted_values t data)) ->
    exists s,
      generateQRContent (Some t) data = Normal s
      /\ In (leading_literal t data) (literal_prefixes t)
      /\ starts_with s (leading_literal t data)
      /\ occurrences (leading_literal t data) s
         = 1 + list_sum (map (occurrences (leading_literal t data))
                           (inserted_values t data))
      /\ (occurrences (leading_literal t data) s = 1 <->
          Forall (fun v => includes v (leading_literal t data) = false)
            (inserted_values t data))
      /\ (t = Url ->
          generateQRContent (Some Url) (set_field f_url s data)
          = Normal s)).
  { intros s Hs Hp Hstart Hocc. exists s.
    repeat (split; [assumption|]). split.
    - apply literal_once_iff, Hocc.
    - intros ->. apply encode_url_fixpoint, Hs. }
  destruct t.
  - (* Url *)
    apply (proj1 (validate_nonempty_field _)) in Hvalid.
    apply truthy_nonempty in Hvalid.
    pose proof (generateQRContent_url data) as Hgen. rewrite Hvalid in Hgen.
    unfold leading_literal, inserted_values in *.
    destruct (startsWith (value_of (url data)) (lit "http://")) eqn:E1.
    { pose proof E1 as [r Hr]%startsWith_iff. rewrite Hr in *.
      apply (Hfinish _ Hgen); [cbn; tauto | exists r; reflexivity |].
      change (skipn 7 (lit "http://" ++ r)) with r.
      rewrite occurrences_literal by (cbn; tauto). cbn [map].
      rewrite list_sum_cons. cbn [list_sum fold_right]. lia. }
    destruct (startsWith (value_of (url data)) (lit "https://")) eqn:E2.
    { pose proof E2 as [r Hr]%startsWith_iff. rewrite Hr in *.
      apply (Hfinish _ Hgen); [cbn; tauto | exists r; reflexivity |].
      change (skipn 8 (lit "https://" ++ r)) with r.
      rewrite occurrences_literal by (cbn; tauto). cbn [map].
      rewrite list_sum_cons. cbn [list_sum fold_right]. lia. }
    apply (Hfinish _ Hgen);
      [cbn; tauto | exists (value_of (url data)); reflexivity |].
    rewrite occurrences_literal by (cbn; tauto). cbn [map].
    rewrite list_sum_cons. cbn [list_sum fold_right]. lia.
  - contradiction.
  - (* Email *)
    destruct (Hwf eq_refl) as [Hs Hb].
    destruct (generateQRContent_email_returns data Hs Hb)
      as (subject' & body' & Es & Eb & Hgen).
    apply (Hfinish _ Hgen); [cbn; tauto | eexists; reflexivity |].
    cbn [leading_literal inserted_values map].
    rewrite !list_sum_cons. cbn [list_sum fold_right].
    apply occurrences_mailto; assumption.
  - (* Wifi *)
    apply (Hfinish _ (generateQRContent_wifi data));
      [cbn; tauto | eexists; reflexivity |].
    cbn [leading_literal inserted_values map].
    rewrite !list_sum_cons. cbn [list_sum fold_right].
    apply occurrences_wifi. destruct (hidden data) as [[|]|]; tauto.
  - (* Phone *)
    apply (Hfinish _ (generateQRContent_phone data));
      [cbn; tauto | eexists; reflexivity |].
    cbn [leading_literal inserted_values map].
    rewrite !list_sum_cons. cbn [list_sum fold_right].
    rewrite occurrences_literal by (cbn; tauto). lia.
Qed.

Lemma encode_literal_prefix_witness :
  exists s,
    generateQRContent (Some Url) form_url_bare = Normal s
    /\ In (leading_literal Url form_url_bare) (literal_prefixes Url)
    /\ starts_with s (leading_literal Url form_url_bare)
    /\ occurrences (leading_literal Url form_url_bare) s
       = 1 + list_sum (map (occurrences (leading_literal Url form_url_bare))
                         (inserted_values Url form_url_bare))
    /\ (occurrences (leading_literal Url form_url_bare) s = 1 <->
        Forall (fun v => includes v (leading_literal Url form_url_bare)
                         = false)
          (inserted_values Url form_url_bare))
    /\ (Url = Url ->
        generateQRContent (Some Url) (set_field f_url s form_url_bare)
        = Normal s).
Proof.
  apply (encode_literal_prefix Url form_url_bare).
  - reflexivity.
  - discriminate.
  - discriminate.
Defined.

(** C6 as written fails when a field value holds the literal itself: the
    network name ['WIFI:'] is accepted and the payload then contains the
    literal twice. *)
Lemma encode_wifi_literal_twice :
  validateInput (Some Wifi) form_wifi_literal = true
  /\ generateQRContent (Some Wifi) form_wifi_literal
     = Normal (lit "WIFI:T:WPA;S:WIFI:;P:;H:false;;")
  /\ occurrences (lit "WIFI:") (lit "WIFI:T:WPA;S:WIFI:;P:;H:false;;") = 2.
Proof. repeat split. Qed.

Example encode_url_prefixed_twice :
  generateQRContent (Some Url)
    (set_field f_url (lit "https://https://x") emptyForm)
  = Normal (lit "https://https://x")
  /\ occurrences (lit "https://") (lit "https://https://x") = 2.
Proof. split; reflexivity. Qed.

Example encode_phone_literal_after_stripping :
  includes (lit "t el:1234567") (lit "tel:") = false
  /\ validateInput (Some Phone)
       (set_field f_phone (lit "t el:1234567") emptyForm) = true
  /\ generateQRContent (Some Phone)
       (set_field f_phone (lit "t el:1234567") emptyForm)
     = Normal (lit "tel:tel:1234567")
  /\ occurrences (lit "tel:") (lit "tel:tel:1234567") = 2.
Proof. repeat split. Qed.

(** ** Validated input and the payload *)

Lemma validated_payload (t : QRType) (data : FormData) :
  validateInput (Some t) data = true ->
  (exists s, generateQRContent (Some t) data = Normal s /\ s <> [])
  \/ (t = Email
      /\ (isWellFormed (value_of (emailSubject data)) = false
          \/ isWellFormed (value_of (emailBody data)) = false)
      /\ generateQRContent (Some t) data = Throw URIError).
Proof.
  intros Hvalid. destruct t.
  - (* Url *)
    left. apply (proj1 (validate_nonempty_field _)) in Hvalid.
    rewrite generateQRContent_url.
    eexists. split; [reflexivity|].
    destruct (_ && _ && _); [discriminate | exact Hvalid].
  - (* Text *)
    left. apply (proj1 (validate_nonempty_field _)) in Hvalid.
    exists (value_of (text data)). split; [|exact Hvalid].
    unfold generateQRContent. rewrite or_else_empty. reflexivity.
  - (* Email *)
    destruct (isWellFormed (value_of (emailSubject data))) eqn:Hs.
    + destruct (isWellFormed (value_of (emailBody data))) eqn:Hb.
      * left.
        destruct (generateQRContent_email_returns data Hs Hb)
          as (subject' & body' & _ & _ & Hgen).
        eexists. split; [exact Hgen | discriminate].
      * right. repeat split; [tauto|].
        apply generateQRContent_email_throws. tauto.
    + right. repeat split; [tauto|].
      apply generateQRContent_email_throws. tauto.
  - (* Wifi *)
    left. eexists. split; [apply generateQRContent_wifi | discriminate].
  - (* Phone *)
    left. eexists. split; [apply generateQRContent_phone | discriminate].
Qed.

Lemma payload_never_empty (t : QRType) (data : FormData) (s : js_string) :
  validateInput (Some t) data = true ->
  generateQRContent (Some t) data = Normal s ->
  s <> [].
Proof.
  intros Hvalid Hgen.
  destruct (validated_payload t data Hvalid)
    as [(s' & Hs' & Hne) | (_ & _ & Ht)].
  - congruence.
  - congruence.
Qed.

(** ** The submit handler *)

Section Submit.

Variable toDataURL : Renderer.
Variable st : State.

Lemma submit_unset :
  qrType st = None -> submit toDataURL st = (st, []).
Proof.
  intros Ht. unfold submit, handleSubmit, bindE, getState. cbn [fst snd].
  rewrite Ht. reflexivity.
Qed.

Lemma submit_rejected (t : QRType) :
  qrType st = Some t ->
  validateInput (qrType st) (formData st) = false ->
  submit toDataURL st =
  (with_error msg_invalid st, [CallValidate (qrType st) (formData st)]).
Proof.
  intros Ht Hv.
  unfold submit, handleSubmit, bindE, getState, try_catch, call.
  cbn [fst snd]. rewrite Ht, <- Ht, Hv. reflexivity.
Qed.

Lemma submit_encode_throws (t : QRType) (e : js_error) :
  qrType st = Some t ->
  validateInput (qrType st) (formData st) = true ->
  generateQRContent (qrType st) (formData st) = Throw e ->
  submit toDataURL st =
  (with_error msg_failed st,
   [CallValidate (qrType st) (formData st);
    CallEncode (qrType st) (formData st);
    CallConsoleError e]).
Proof.
  intros Ht Hv Hg.
  unfold submit, handleSubmit, bindE, getState, try_catch, call.
  cbn [fst snd]. rewrite Ht, <- Ht, Hv, Hg. reflexivity.
Qed.

Lemma submit_render_throws (t : QRType) (content : js_string)
    (e : js_error) :
  qrType st = Some t ->
  validateInput (qrType st) (formData st) = true ->
  generateQRContent (qrType st) (formData st) = Normal content ->
  toDataURL content renderOptions = Throw e ->
  submit toDataURL st =
  (with_error msg_failed st,
   [CallValidate (qrType st) (formData st);
    CallEncode (qrType st) (formData st);
    CallRender content renderOptions;
    CallConsoleError e]).
Proof.
  intros Ht Hv Hg Hr.
  unfold submit, handleSubmit, bindE, getState, try_catch, call.
  cbn [fst snd]. rewrite Ht, <- Ht, Hv, Hg. cbn [negb app fst snd].
  rewrite Hr. reflexivity.
Qed.

Lemma submit_success (t : QRType) (content u : js_string) :
  qrType st = Some t ->
  validateInput (qrType st) (formData st) = true ->
  generateQRContent (qrType st) (formData st) = Normal content ->
  toDataURL content renderOptions = Normal u ->
  submit toDataURL st =
  (with_error [] (with_qrUrl u st),
   [CallValidate (qrType st) (formData st);
    CallEncode (qrType st) (formData st);
    CallRender content renderOptions]).
Proof.
  intros Ht Hv Hg Hr.
  unfold submit, handleSubmit, bindE, getState, try_catch, call.
  cbn [fst snd]. rewrite Ht, <- Ht, Hv, Hg. cbn [negb app fst snd].
  rewrite Hr. reflexivity.
Qed.

Lemma submit_cases : submit_outcome toDataURL st (submit toDataURL st).
Proof.
  destruct (qrType st) as [t|] eqn:Ht.
  2:{ rewrite (submit_unset Ht). apply outcome_unset, Ht. }
  assert (Hsel : qrType st <> None) by congruence.
  destruct (validateInput (qrType st) (formData st)) eqn:Hv.
  2:{ rewrite (submit_rejected t Ht Hv). apply outcome_rejected; assumption. }
  destruct (generateQRContent (qrType st) (formData st))
    as [content|e] eqn:Hg.
  2:{ rewrite (submit_encode_throws t e Ht Hv Hg).
      apply outcome_encode_throws; assumption. }
  destruct (toDataURL content renderOptions) as [u|e] eqn:Hr.
  - rewrite (submit_success t content u Ht Hv Hg Hr).
    apply outcome_success with (content := content); assumption.
  - rewrite (submit_render_throws t content e Ht Hv Hg Hr).
    apply outcome_render_throws; assumption.
Qed.

End Submit.

Lemma submit_keeps_form (toDataURL : Renderer) (st : State) :
  qrType (fst (submit toDataURL st)) = qrType st
  /\ formData (fst (submit toDataURL st)) = formData st.
Proof.
  destruct (submit_cases toDataURL st); split; reflexivity.
Qed.

Lemma rendered_calls_nonempty (toDataURL : Renderer) (st : State)
    (content : js_string) (opts : RenderOptions) :
  In (CallRender content opts) (snd (submit toDataURL st)) ->
  content <> [].
Proof.
  intros Hin.
  assert (Hgen : forall c,
            qrType st <> None ->
            validateInput (qrType st) (formData st) = true ->
            generateQRContent (qrType st) (formData st) = Normal c ->
            c <> []).
  { intros c Hsel Hv Hg. destruct (qrType st) as [t|]; [|contradiction].
    exact (payload_never_empty t (formData st) c Hv Hg). }
  destruct (submit_cases toDataURL st) as [| | | c e Hsel Hv Hg Hr
                                             | c u Hsel Hv Hg Hr];
    cbn [snd In] in Hin.
  - contradiction.
  - destruct Hin as [Hin | []]; discriminate Hin.
  - destruct Hin as [Hin | [Hin | [Hin | []]]]; discriminate Hin.
  - destruct Hin as [Hin | [Hin | [Hin | [Hin | []]]]];
      try discriminate Hin.
    injection Hin as <- _. exact (Hgen c Hsel Hv Hg).
  - destruct Hin as [Hin | [Hin | [Hin | []]]]; try discriminate Hin.
    injection Hin as <- _. exact (Hgen c Hsel Hv Hg).
Qed.

Lemma submit_renders_payload (toDataURL : Renderer) (t : QRType)
    (data : FormData) (shown message s : js_string) :
  validateInput (Some t) data = true ->
  generateQRContent (Some t) data = Normal s ->
  filter is_render_call
    (snd (submit toDataURL (mkState (Some t) data shown message)))
  = [CallRender s renderOptions].
Proof.
  intros Hv Hg.
  destruct (toDataURL s renderOptions) as [u|e] eqn:Hr.
  - rewrite (submit_success toDataURL (mkState (Some t) data shown message)
               t s u eq_refl Hv Hg Hr).
    reflexivity.
  - rewrite (submit_render_throws toDataURL
               (mkState (Some t) data shown message) t s e eq_refl Hv Hg Hr).
    reflexivity.
Qed.

Lemma submit_skips_renderer (toDataURL : Renderer) (t : QRType)
    (data : FormData) (shown message : js_string) (e : js_error) :
  validateInput (Some t) data = true ->
  generateQRContent (Some t) data = Throw e ->
  filter is_render_call
    (snd (submit toDataURL (mkState (Some t) data shown message)))
  = [].
Proof.
  intros Hv Hg.
  rewrite (submit_encode_throws toDataURL
             (mkState (Some t) data shown message) t e eq_refl Hv Hg).
  reflexivity.
Qed.

(** C10 (amended).  For every type and record that [validateInput]
    accepts, [generateQRContent] returns a non-empty string, which is what
    the attempt hands to the renderer, in its one renderer call; except
    that for Email with an unpaired surrogate in subject or body it throws
    [URIError] and the attempt does not call the renderer at all.  Either
    way no attempt hands the renderer an empty content. *)
Theorem validated_payload_nonempty (t : QRType) (data : FormData) :
  validateInput (Some t) data = true ->
  ((t = Email ->
    isWellFormed (value_of (emailSubject data)) = true
    /\ isWellFormed (value_of (emailBody data)) = true) ->
   exists s,
     generateQRContent (Some t) data = Normal s
     /\ s <> []
     /\ (forall toDataURL shown message,
           filter is_render_call
             (snd (submit toDataURL (mkState (Some t) data shown message)))
           = [CallRender s renderOptions]))
  /\ (t = Email ->
      isWellFormed (value_of (emailSubject data)) = false
      \/ isWellFormed (value_of (emailBody data)) = false ->
      generateQRContent (Some t) data = Throw URIError
      /\ (forall toDataURL shown message,
            filter is_render_call
              (snd (submit toDataURL (mkState (Some t) data shown message)))
            = []))
  /\ (forall toDataURL shown message content opts,
        In (CallRender content opts)
           (snd (submit toDataURL (mkState (Some t) data shown message))) ->
        content <> []).
Proof.
  intros Hvalid. split; [|split].
  - intros Hwf.
    destruct (validated_payload t data Hvalid)
      as [(s & Hs & Hne) | (Ht & Hill & _)].
    + exists s. repeat split; try assumption.
      intros toDataURL shown message.
      apply submit_renders_payload; assumption.
    + destruct (Hwf Ht) as [Hs Hb]. destruct Hill; congruence.
  - intros -> Hill.
    pose proof (generateQRContent_email_throws data Hill) as Hthrow.
    split; [exact Hthrow|]. intros toDataURL shown message.
    apply (submit_skips_renderer toDataURL Email data shown message
             URIError Hvalid Hthrow).
  - intros toDataURL shown message content opts.
    apply rendered_calls_nonempty.
Qed.

Lemma validated_payload_nonempty_witness :
  (exists s,
     generateQRContent (Some Url) form_url_bare = Normal s
     /\ s <> []
     /\ (forall toDataURL shown message,
           filter is_render_call
             (snd (submit toDataURL
                     (mkState (Some Url) form_url_bare shown message)))
           = [CallRender s renderOptions]))
  /\ generateQRContent (Some Email) form_lone_surrogate = Throw URIError
  /\ (forall toDataURL shown message,
        filter is_render_call
          (snd (submit toDataURL
                  (mkState (Some Email) form_lone_surrogate shown message)))
        = []).
Proof.
  split.
  - apply (proj1 (validated_payload_nonempty Url form_url_bare eq_refl)).
    discriminate.
  - apply (proj1 (proj2 (validated_payload_nonempty Email
                           form_lone_surrogate eq_refl)) eq_refl).
    left. reflexivity.
Defined.

(** C10 as written fails for an accepted Email record whose subject holds
    an unpaired surrogate: the encoder yields no string. *)
Lemma validated_email_no_payload :
  validateInput (Some Email) form_lone_surrogate = true
  /\ ~ (exists s,
          generateQRContent (Some Email) form_lone_surrogate = Normal s
          /\ s <> []).
Proof.
  split; [reflexivity|]. intros (s & Hs & _). discriminate Hs.
Qed.

(** ** Generate attempts and the displayed output *)

(** C7 (amended).  A generate attempt replaces the displayed output only
    when the renderer succeeds, and then clears the error; when the renderer
    fails the message ['Failed to generate QR code'] is set and the output
    shown before the attempt is left as it was.  The attempt never touches
    the selected type or the field values. *)
Theorem submit_replaces_output_on_success_only (toDataURL : Renderer)
    (st : State) :
  (forall content u,
      qrType st <> None ->
      validateInput (qrType st) (formData st) = true ->
      generateQRContent (qrType st) (formData st) = Normal content ->
      toDataURL content renderOptions = Normal u ->
      fst (submit toDataURL st) = with_error [] (with_qrUrl u st))
  /\ (forall content e,
        qrType st <> None ->
        validateInput (qrType st) (formData st) = true ->
        generateQRContent (qrType st) (formData st) = Normal content ->
        toDataURL content renderOptions = Throw e ->
        fst (submit toDataURL st) = with_error msg_failed st
        /\ qrUrl (fst (submit toDataURL st)) = qrUrl st)
  /\ (qrUrl (fst (submit toDataURL st)) <> qrUrl st ->
      exists content,
        generateQRContent (qrType st) (formData st) = Normal content
        /\ toDataURL content renderOptions
           = Normal (qrUrl (fst (submit toDataURL st)))
        /\ error (fst (submit toDataURL st)) = [])
  /\ qrType (fst (submit toDataURL st)) = qrType st
  /\ formData (fst (submit toDataURL st)) = formData st.
Proof.
  split; [|split; [|split]].
  - intros content u Hsel Hv Hg Hr.
    destruct (qrType st) as [t|] eqn:Ht; [|contradiction].
    rewrite <- Ht in *.
    rewrite (submit_success toDataURL st t content u Ht Hv Hg Hr).
    reflexivity.
  - intros content e Hsel Hv Hg Hr.
    destruct (qrType st) as [t|] eqn:Ht; [|contradiction].
    rewrite <- Ht in *.
    rewrite (submit_render_throws toDataURL st t content e Ht Hv Hg Hr).
    split; reflexivity.
  - destruct (submit_cases toDataURL st) as [| | | | c u Hsel Hv Hg Hr];
      cbn [fst with_error with_qrUrl qrUrl error]; intros Hchanged;
      try contradiction.
    exists c. repeat split; assumption.
  - apply submit_keeps_form.
Qed.

Lemma submit_replaces_output_on_success_only_witness :
  fst (submit renderer_ok state_with_output)
  = with_error []
      (with_qrUrl (lit "data:image/png;base64,https://example.com")
         state_with_output)
  /\ fst (submit renderer_fails state_with_output)
     = with_error msg_failed state_with_output.
Proof.
  split.
  - apply (proj1 (submit_replaces_output_on_success_only renderer_ok
                    state_with_output) (lit "https://example.com")).
    + discriminate.
    + reflexivity.
    + reflexivity.
    + reflexivity.
  - apply (proj1 (proj2 (submit_replaces_output_on_success_only
                           renderer_fails state_with_output))
             (lit "https://example.com") Error).
    + discriminate.
    + reflexivity.
    + reflexivity.
    + reflexivity.
Defined.

(** C7 as written fails: after a failed render the output of the previous
    attempt is still displayed, next to the error message. *)
Lemma submit_failure_keeps_stale_output :
  output_displayed state_with_output = true
  /\ qrUrl (fst (submit renderer_fails state_with_output))
     = qrUrl state_with_output
  /\ output_displayed (fst (submit renderer_fails state_with_output)) = true
  /\ error (fst (submit renderer_fails state_with_output)) = msg_failed.
Proof. repeat split. Qed.

(** C9 (amended).  When a type is selected and [validateInput] rejects, the
    attempt sets the message ['Please fill in all required fields
    correctly'] (no final period) and calls nothing but the validator, so
    the encoder and the renderer are not invoked and the displayed output
    stays as it was.  When no type is selected the attempt ends at once:
    nothing is called and no message is set. *)
Theorem submit_rejected_attempt (toDataURL : Renderer) (st : State) :
  validateInput (qrType st) (formData st) = false ->
  (qrType st <> None ->
   submit toDataURL st =
   (with_error msg_invalid st, [CallValidate (qrType st) (formData st)]))
  /\ (qrType st = None -> submit toDataURL st = (st, []))
  /\ qrUrl (fst (submit toDataURL st)) = qrUrl st
  /\ (forall c, In c (snd (submit toDataURL st)) ->
                c = CallValidate (qrType st) (formData st)).
Proof.
  intros Hv.
  assert (Hsel : qrType st <> None ->
                 submit toDataURL st =
                 (with_error msg_invalid st,
                  [CallValidate (qrType st) (formData st)])).
  { intros Hsel. destruct (qrType st) as [t|] eqn:Ht; [|contradiction].
    rewrite <- Ht in *. exact (submit_rejected toDataURL st t Ht Hv). }
  split; [exact Hsel|]. split; [apply submit_unset|].
  destruct (qrType st) as [t|] eqn:Ht.
  - rewrite <- Ht in *. rewrite Hsel by congruence. split; [reflexivity|].
    intros c [<- | []]. reflexivity.
  - rewrite (submit_unset toDataURL st Ht). split; [reflexivity|].
    intros c [].
Qed.

Lemma submit_rejected_attempt_witness :
  (qrType state_phone_short <> None ->
   submit renderer_ok state_phone_short =
   (with_error msg_invalid state_phone_short,
    [CallValidate (qrType state_phone_short) (formData state_phone_short)]))
  /\ (qrType state_phone_short = None ->
      submit renderer_ok state_phone_short = (state_phone_short, []))
  /\ qrUrl (fst (submit renderer_ok state_phone_short))
     = qrUrl state_phone_short
  /\ (forall c, In c (snd (submit renderer_ok state_phone_short)) ->
                c = CallValidate (qrType state_phone_short)
                      (formData state_phone_short)).
Proof.
  apply (submit_rejected_attempt renderer_ok state_phone_short).
  reflexivity.
Defined.

(** C9 as written fails with no type selected: the validator's answer for
    the unset type is false, yet the attempt sets no message; and the
    message of a rejected attempt carries no final period. *)
Lemma submit_unset_sets_no_message :
  validateInput (qrType initialState) (formData initialState) = false
  /\ error (fst (submit renderer_ok initialState)) = []
  /\ error (fst (submit renderer_ok state_phone_short))
     = lit "Please fill in all required fields correctly"
  /\ lit "Please fill in all required fields correctly"
     <> lit "Please fill in all required fields correctly.".
Proof.
  repeat split. intros Heq. apply (f_equal (@List.length code_unit)) in Heq.
  discriminate Heq.
Qed.

(** ** The attempt around its await *)

(** An attempt whose promise settles before any other event is the
    attempt [submit] describes. *)
Lemma submit_until_await_resume (toDataURL : Renderer) (st : State) :
  submit toDataURL st =
  match handleSubmit_until_await st with
  | Finished st' calls => (st', calls)
  | Awaiting content calls =>
      (fst (handleSubmit_resume (toDataURL content renderOptions) st),
       calls ++ snd (handleSubmit_resume (toDataURL content renderOptions)
                       st))
  end.
Proof.
  unfold handleSubmit_until_await.
  destruct (qrType st) as [t|] eqn:Ht.
  2:{ apply submit_unset, Ht. }
  rewrite <- Ht.
  destruct (validateInput (qrType st) (formData st)) eqn:Hv; cbn [negb].
  2:{ exact (submit_rejected toDataURL st t Ht Hv). }
  destruct (generateQRContent (qrType st) (formData st))
    as [content|e] eqn:Hg.
  2:{ exact (submit_encode_throws toDataURL st t e Ht Hv Hg). }
  destruct (toDataURL content renderOptions) as [u|e] eqn:Hr.
  - exact (submit_success toDataURL st t content u Ht Hv Hg Hr).
  - exact (submit_render_throws toDataURL st t content e Ht Hv Hg Hr).
Qed.

Lemma handleSubmit_until_await_keeps (st st' : State) (calls : list Call) :
  handleSubmit_until_await st = Finished st' calls ->
  qrType st' = qrType st /\ formData st' = formData st.
Proof.
  unfold handleSubmit_until_await.
  destruct (qrType st) as [t|] eqn:Ht.
  2:{ intros [= <- _]. rewrite Ht. split; reflexivity. }
  rewrite <- Ht.
  destruct (negb (validateInput (qrType st) (formData st))).
  { intros [= <- _]. split; reflexivity. }
  destruct (generateQRContent (qrType st) (formData st)); [discriminate|].
  intros [= <- _]. split; reflexivity.
Qed.

Lemma handleSubmit_resume_keeps (outcome : completion js_string)
    (st : State) :
  qrType (fst (handleSubmit_resume outcome st)) = qrType st
  /\ formData (fst (handleSubmit_resume outcome st)) = formData st.
Proof. destruct outcome; split; reflexivity. Qed.

Lemma begin_submit_keeps (toDataURL : Renderer) (c : Config) :
  qrType (cells (begin_submit toDataURL c)) = qrType (cells c)
  /\ formData (cells (begin_submit toDataURL c)) = formData (cells c).
Proof.
  unfold begin_submit.
  destruct (handleSubmit_until_await (cells c)) as [st' calls|content calls]
    eqn:Hs; cbn [cells].
  - exact (handleSubmit_until_await_keeps _ _ _ Hs).
  - split; reflexivity.
Qed.

(** ** Changing the content type *)

Lemma handleInputChange_keeps_type (e : ChangeEvent) (st : State) :
  qrType (handleInputChange e st) = qrType st.
Proof. destruct e; reflexivity. Qed.

Lemma step_type_change (c c' : Config) (ev : Event) :
  step c ev c' ->
  qrType (cells c') <> qrType (cells c) ->
  ev = EvSelect (qrType (cells c'))
  /\ cells c' = mkState (qrType (cells c')) emptyForm [] [].
Proof.
  intros Hstep Hchanged.
  destruct Hstep as [c v | c e He | c toDataURL | c n outcome Hn];
    cbn [cells] in *.
  - split; reflexivity.
  - rewrite handleInputChange_keeps_type in Hchanged. contradiction.
  - destruct (begin_submit_keeps toDataURL c) as [Ht _]. contradiction.
  - destruct (handleSubmit_resume_keeps outcome (cells c)) as [Ht _].
    contradiction.
Qed.

Lemma fields_within_empty (type : QRChoice) : fields_within type emptyForm.
Proof. unfold fields_within. cbn. intuition congruence. Qed.

Lemma fields_within_change (st : State) (e : ChangeEvent) :
  rendered (qrType st) e = true ->
  fields_within (qrType st) (formData st) ->
  fields_within (qrType st) (formData (handleInputChange e st)).
Proof.
  unfold fields_within. intros He Hinv.
  destruct (qrType st) as [[| | | |]|], e as [[| | | | | | |] value|checked];
    try discriminate He; cbn; intuition congruence.
Qed.

(** In every reachable configuration the fields that are set are fields of
    the selected type. *)
Lemma reachable_fields_within (c : Config) :
  reachable c -> fields_within (qrType (cells c)) (formData (cells c)).
Proof.
  induction 1 as [|c ev c' Hreach IH Hstep].
  - apply fields_within_empty.
  - destruct Hstep as [c v | c e He | c toDataURL | c n outcome Hn];
      cbn [cells].
    + apply fields_within_empty.
    + rewrite handleInputChange_keeps_type.
      apply fields_within_change; assumption.
    + destruct (begin_submit_keeps toDataURL c) as [-> ->]. exact IH.
    + destruct (handleSubmit_resume_keeps outcome (cells c)) as [-> ->].
      exact IH.
Qed.

(** C8.  A transition that changes the selected type is the select handler,
    and it leaves the empty record, no output and no error: nothing of the
    state before it survives, so the validator rejects every type on the
    record it leaves.  Consequently, in every reachable configuration,
    promises in flight or settled late included, the only fields set are
    fields of the type then selected. *)
Theorem type_change_clears_state (c c' : Config) (ev : Event) :
  step c ev c' ->
  qrType (cells c') <> qrType (cells c) ->
  ev = EvSelect (qrType (cells c'))
  /\ formData (cells c') = emptyForm
  /\ qrUrl (cells c') = []
  /\ error (cells c') = []
  /\ output_displayed (cells c') = false
  /\ error_displayed (cells c') = false
  /\ (forall type, validateInput type (formData (cells c')) = false)
  /\ (forall c'', reachable c'' ->
                  fields_within (qrType (cells c'')) (formData (cells c''))).
Proof.
  intros Hstep Hchanged.
  destruct (step_type_change c c' ev Hstep Hchanged) as [Hev Hc'].
  split; [exact Hev|]. rewrite Hc'. cbn.
  repeat (split; [reflexivity|]). split.
  - apply validate_empty_form.
  - apply reachable_fields_within.
Qed.

Lemma type_change_clears_state_witness :
  EvSelect (Some Email)
  = EvSelect (qrType (selectType (Some Email) state_with_output))
  /\ formData (selectType (Some Email) state_with_output) = emptyForm
  /\ qrUrl (selectType (Some Email) state_with_output) = []
  /\ error (selectType (Some Email) state_with_output) = []
  /\ output_displayed (selectType (Some Email) state_with_output) = false
  /\ error_displayed (selectType (Some Email) state_with_output) = false
  /\ (forall type,
        validateInput type
          (formData (selectType (Some Email) state_with_output)) = false)
  /\ (forall c'', reachable c'' ->
                  fields_within (qrType (cells c'')) (formData (cells c''))).
Proof.
  apply (type_change_clears_state (mkConfig state_with_output [])
           (mkConfig (selectType (Some Email) state_with_output) [])
           (EvSelect (Some Email))).
  - apply (step_select (mkConfig state_with_output [])).
  - discriminate.
Defined.

Example select_after_failure_clears :
  selectType (Some Wifi) (fst (submit renderer_fails state_with_output))
  = mkState (Some Wifi) emptyForm [] [].
Proof. reflexivity. Qed.

(** ** More on encodeURIComponent *)

Lemma encodeURIComponent_unescaped (s : js_string) :
  forallb uri_unescaped s = true -> encodeURIComponent s = Normal s.
Proof.
  induction s as [|c s IH]; [reflexivity|].
  cbn [forallb]. intros [Hc Hs]%andb_true_iff.
  rewrite encodeURIComponent_cons, Hc, (IH Hs). reflexivity.
Qed.

Lemma utf8_length (cp : N) :
  1 <= List.length (utf8 cp) <= 4
  /\ ((cp < 65536)%N -> List.length (utf8 cp) <= 3).
Proof.
  unfold utf8.
  destruct (cp <? 128)%N; [cbn; lia|].
  destruct (cp <? 2048)%N; [cbn; lia|].
  destruct (cp <? 65536)%N eqn:E; [cbn; lia|].
  cbn. split; [lia|]. intros Hlt. apply N.ltb_ge in E. lia.
Qed.

Lemma percent_encode_length (cp : N) :
  List.length (percent_encode cp) = 3 * List.length (utf8 cp).
Proof.
  unfold percent_encode. induction (utf8 cp) as [|b l IH]; [reflexivity|].
  cbn [flat_map]. rewrite length_app, IH. cbn [percent_octet List.length].
  lia.
Qed.

Lemma percent_encode_bounds (cp : N) :
  3 <= List.length (percent_encode cp) <= 12
  /\ ((cp < 65536)%N -> List.length (percent_encode cp) <= 9).
Proof.
  rewrite percent_encode_length.
  destruct (utf8_length cp) as [[Hlo Hhi] H16]. split; [lia|].
  intros Hlt. specialize (H16 Hlt). lia.
Qed.

Lemma encodeURIComponent_grows (s : js_string) :
  forall r,
    encodeURIComponent s = Normal r ->
    List.length s <= List.length r
    /\ (List.length r = List.length s -> forallb uri_unescaped s = true).
Proof.
  induction s as [|c|c d s IHs IHd] using js_string_pair_ind; intros r.
  - intros [= <-]. split; [lia | reflexivity].
  - rewrite encodeURIComponent_cons. cbn [encodeURIComponent bind].
    destruct (percent_encode_bounds c) as [[Hlo _] _].
    destruct (uri_unescaped c) eqn:Hc.
    { intros [= <-]. cbn. rewrite Hc. split; [lia | reflexivity]. }
    destruct (is_trail_surrogate c); [discriminate|].
    destruct (is_lead_surrogate c); [discriminate|].
    intros [= <-]. rewrite length_app. cbn [List.length]. split; lia.
  - rewrite encodeURIComponent_cons.
    destruct (percent_encode_bounds c) as [[Hlo _] _].
    destruct (uri_unescaped c) eqn:Hc.
    { destruct (encodeURIComponent (d :: s)) as [r'|]; [|discriminate].
      cbn [bind]. intros [= <-]. destruct (IHd r' eq_refl) as [Hle Heq].
      cbn [List.length forallb] in *. rewrite Hc. split; [lia|].
      intros Hlen. apply Heq. lia. }
    destruct (is_trail_surrogate c); [discriminate|].
    destruct (is_lead_surrogate c).
    + destruct (is_trail_surrogate d); [|discriminate].
      destruct (encodeURIComponent s) as [r'|]; [|discriminate].
      cbn [bind]. intros [= <-]. destruct (IHs r' eq_refl) as [Hle _].
      destruct (percent_encode_bounds (surrogate_pair_to_code_point c d))
        as [[Hlo' _] _].
      rewrite length_app. cbn [List.length]. split; lia.
    + destruct (encodeURIComponent (d :: s)) as [r'|]; [|discriminate].
      cbn [bind]. intros [= <-]. destruct (IHd r' eq_refl) as [Hle _].
      rewrite length_app. cbn [List.length] in *. split; lia.
Qed.

Lemma encodeURIComponent_at_most (s : js_string) :
  code_units s ->
  forall r, encodeURIComponent s = Normal r ->
            List.length r <= 9 * List.length s.
Proof.
  unfold code_units.
  induction s as [|c|c d s IHs IHd] using js_string_pair_ind; intros H16 r.
  - intros [= <-]. cbn. lia.
  - rewrite encodeURIComponent_cons. cbn [encodeURIComponent bind].
    inversion H16 as [|? ? Hc16 _]; subst.
    destruct (percent_encode_bounds c) as [_ Hhi]. specialize (Hhi Hc16).
    destruct (uri_unescaped c).
    { intros [= <-]. cbn. lia. }
    destruct (is_trail_surrogate c); [discriminate|].
    destruct (is_lead_surrogate c); [discriminate|].
    intros [= <-]. rewrite length_app. cbn [List.length]. lia.
  - rewrite encodeURIComponent_cons.
    inversion H16 as [|? ? Hc16 Hrest]; subst.
    inversion Hrest as [|? ? Hd16 Hs16]; subst.
    destruct (percent_encode_bounds c) as [_ Hhi]. specialize (Hhi Hc16).
    destruct (uri_unescaped c).
    { destruct (encodeURIComponent (d :: s)) as [r'|]; [|discriminate].
      cbn [bind]. intros [= <-]. specialize (IHd Hrest r' eq_refl).
      cbn [List.length] in *. lia. }
    destruct (is_trail_surrogate c); [discriminate|].
    destruct (is_lead_surrogate c).
    + destruct (is_trail_surrogate d); [|discriminate].
      destruct (encodeURIComponent s) as [r'|]; [|discriminate].
      cbn [bind]. intros [= <-]. specialize (IHs Hs16 r' eq_refl).
      destruct (percent_encode_bounds (surrogate_pair_to_code_point c d))
        as [[_ Hhi'] _].
      rewrite length_app. cbn [List.length]. lia.
    + destruct (encodeURIComponent (d :: s)) as [r'|]; [|discriminate].
      cbn [bind]. intros [= <-]. specialize (IHd Hrest r' eq_refl).
      rewrite length_app. cbn [List.length] in *. lia.
Qed.

Lemma lor_below_pow2 (a b n : N) :
  (a < 2 ^ n)%N -> (b < 2 ^ n)%N -> (N.lor a b < 2 ^ n)%N.
Proof.
  intros Ha Hb.
  destruct (N.eq_dec (N.lor a b) 0) as [E0 | Hne].
  { rewrite E0. apply N.neq_0_lt_0, N.pow_nonzero. discriminate. }
  apply N.log2_lt_pow2; [lia|]. rewrite N.log2_lor.
  assert (Hlog : forall x, (x < 2 ^ n)%N -> (x <> 0)%N -> (N.log2 x < n)%N).
  { intros x Hx Hx0. apply N.log2_lt_pow2; lia. }
  assert (Hn : (0 < n)%N).
  { destruct (N.eq_dec n 0) as [-> | ?]; [|lia].
    cbn in Ha, Hb. assert (a = 0%N) by lia. assert (b = 0%N) by lia.
    subst. contradiction. }
  assert (Ha' : (N.log2 a < n)%N).
  { destruct (N.eq_dec a 0) as [-> | Ha0]; [exact Hn | auto]. }
  assert (Hb' : (N.log2 b < n)%N).
  { destruct (N.eq_dec b 0) as [-> | Hb0]; [exact Hn | auto]. }
  lia.
Qed.

Lemma shiftr_below (a k q : N) :
  (a < 2 ^ k * q)%N -> (N.shiftr a k < q)%N.
Proof.
  intros Ha. rewrite N.shiftr_div_pow2.
  apply N.Div0.div_lt_upper_bound. exact Ha.
Qed.

Lemma continuation_octet (cp shift : N) : (continuation cp shift < 256)%N.
Proof.
  unfold continuation. apply (lor_below_pow2 _ _ 8); [reflexivity|].
  change 63%N with (N.ones 6). rewrite N.land_ones.
  pose proof (N.mod_upper_bound (N.shiftr cp shift) (2 ^ 6)) as Hm.
  cbn in Hm |- *. lia.
Qed.

Lemma utf8_octets (cp : N) :
  (cp < 2097152)%N -> Forall (fun b => (b < 256)%N) (utf8 cp).
Proof.
  intros Hcp. unfold utf8.
  destruct (cp <? 128)%N eqn:E1.
  { apply N.ltb_lt in E1. repeat constructor. lia. }
  destruct (cp <? 2048)%N eqn:E2.
  { apply N.ltb_lt in E2. repeat constructor.
    - apply (lor_below_pow2 _ _ 8); [reflexivity|].
      apply N.lt_trans with 32%N; [|reflexivity].
      apply shiftr_below. exact E2.
    - apply continuation_octet. }
  destruct (cp <? 65536)%N eqn:E3.
  { apply N.ltb_lt in E3. repeat constructor.
    - apply (lor_below_pow2 _ _ 8); [reflexivity|].
      apply N.lt_trans with 16%N; [|reflexivity].
      apply shiftr_below. exact E3.
    - apply continuation_octet.
    - apply continuation_octet. }
  repeat constructor; try apply continuation_octet.
  apply (lor_below_pow2 _ _ 8); [reflexivity|].
  apply N.lt_trans with 8%N; [|reflexivity].
  apply shiftr_below. exact Hcp.
Qed.

Lemma hex_digit_unescaped (n : N) :
  (n < 16)%N -> uri_unescaped (hex_digit n) = true.
Proof.
  intros Hn. unfold hex_digit, uri_unescaped, is_alnum.
  destruct (n <? 10)%N eqn:E; bool_to_prop; lia.
Qed.

Lemma percent_octet_units (b : N) :
  (b < 256)%N -> forallb uri_component_unit (percent_octet b) = true.
Proof.
  intros Hb. unfold percent_octet, uri_component_unit. cbn [forallb].
  rewrite !hex_digit_unescaped; [reflexivity | |].
  - change 15%N with (N.ones 4). rewrite N.land_ones.
    apply N.mod_upper_bound. discriminate.
  - apply shiftr_below. exact Hb.
Qed.

Lemma percent_encode_units (cp : N) :
  (cp < 2097152)%N -> forallb uri_component_unit (percent_encode cp) = true.
Proof.
  intros Hcp. unfold percent_encode.
  induction (utf8_octets cp Hcp) as [|b l Hb _ IH]; [reflexivity|].
  cbn [flat_map]. rewrite forallb_app, IH, percent_octet_units by exact Hb.
  reflexivity.
Qed.

Lemma surrogate_pair_range (c d : code_unit) :
  is_lead_surrogate c = true ->
  is_trail_surrogate d = true ->
  (65536 <= surrogate_pair_to_code_point c d < 1114112)%N.
Proof.
  unfold is_lead_surrogate, is_trail_surrogate, surrogate_pair_to_code_point.
  bool_to_prop. lia.
Qed.

Lemma encodeURIComponent_units (s : js_string) :
  code_units s ->
  forall r, encodeURIComponent s = Normal r ->
            forallb uri_component_unit r = true.
Proof.
  unfold code_units.
  induction s as [|c|c d s IHs IHd] using js_string_pair_ind; intros H16 r.
  - intros [= <-]. reflexivity.
  - rewrite encodeURIComponent_cons. cbn [encodeURIComponent bind].
    inversion H16 as [|? ? Hc16 _]; subst.
    destruct (uri_unescaped c) eqn:Hc.
    { intros [= <-]. cbn. unfold uri_component_unit. rewrite Hc.
      reflexivity. }
    destruct (is_trail_surrogate c); [discriminate|].
    destruct (is_lead_surrogate c); [discriminate|].
    intros [= <-]. rewrite app_nil_r. apply percent_encode_units. lia.
  - rewrite encodeURIComponent_cons.
    inversion H16 as [|? ? Hc16 Hrest]; subst.
    inversion Hrest as [|? ? Hd16 Hs16]; subst.
    destruct (uri_unescaped c) eqn:Hc.
    { destruct (encodeURIComponent (d :: s)) as [r'|]; [|discriminate].
      cbn [bind]. intros [= <-]. cbn [forallb].
      rewrite (IHd Hrest r' eq_refl). unfold uri_component_unit.
      rewrite Hc. reflexivity. }
    destruct (is_trail_surrogate c); [discriminate|].
    destruct (is_lead_surrogate c) eqn:Hlead.
    + destruct (is_trail_surrogate d) eqn:Htrail; [|discriminate].
      destruct (encodeURIComponent s) as [r'|]; [|discriminate].
      cbn [bind]. intros [= <-].
      rewrite forallb_app, (IHs Hs16 r' eq_refl), percent_encode_units.
      * reflexivity.
      * pose proof (surrogate_pair_range c d Hlead Htrail). lia.
    + destruct (encodeURIComponent (d :: s)) as [r'|]; [|discriminate].
      cbn [bind]. intros [= <-].
      rewrite forallb_app, (IHd Hrest r' eq_refl), percent_encode_units.
      * reflexivity.
      * lia.
Qed.

Lemma encodeURIComponent_app (s : js_string) :
  isWellFormed s = true ->
  forall t,
    encodeURIComponent (s ++ t) =
    (r <- encodeURIComponent s ;;
     r' <- encodeURIComponent t ;;
     Normal (r ++ r')).
Proof.
  induction s as [|c|c d s IHs IHd] using js_string_pair_ind; intros Hwf t.
  - cbn. destruct (encodeURIComponent t); reflexivity.
  - rewrite isWellFormed_cons in Hwf.
    change ([c] ++ t) with (c :: t).
    rewrite !encodeURIComponent_cons. cbn [encodeURIComponent bind].
    destruct (uri_unescaped c).
    { destruct (encodeURIComponent t); reflexivity. }
    destruct (is_trail_surrogate c); [discriminate|].
    destruct (is_lead_surrogate c); [discriminate|].
    rewrite app_nil_r. destruct (encodeURIComponent t); reflexivity.
  - rewrite isWellFormed_cons in Hwf.
    change ((c :: d :: s) ++ t) with (c :: (d :: s) ++ t).
    rewrite (encodeURIComponent_cons c (d :: s)),
      (encodeURIComponent_cons c ((d :: s) ++ t)).
    destruct (uri_unescaped c) eqn:Hc.
    { apply uri_unescaped_not_surrogate in Hc as [Ht Hl].
      rewrite Ht, Hl in Hwf. rewrite (IHd Hwf).
      destruct (encodeURIComponent (d :: s)); [|reflexivity].
      destruct (encodeURIComponent t); reflexivity. }
    destruct (is_trail_surrogate c); [discriminate|].
    destruct (is_lead_surrogate c).
    + apply andb_true_iff in Hwf as [Hd Hs].
      cbn [app]. rewrite Hd, (IHs Hs).
      destruct (encodeURIComponent s); [|reflexivity].
      destruct (encodeURIComponent t); cbn [bind];
        rewrite <- ?app_assoc; reflexivity.
    + rewrite (IHd Hwf).
      destruct (encodeURIComponent (d :: s)); [|reflexivity].
      destruct (encodeURIComponent t); cbn [bind];
        rewrite <- ?app_assoc; reflexivity.
Qed.

(** X1.  [encodeURIComponent] returns exactly on the strings without an
    unpaired surrogate, and on every other string it throws [URIError] and
    nothing else. *)
Theorem encodeURIComponent_throws_iff_unpaired (s : js_string) :
  ((exists r, encodeURIComponent s = Normal r) <-> isWellFormed s = true)
  /\ (encodeURIComponent s = Throw URIError <-> isWellFormed s = false)
  /\ encodeURIComponent s <> Throw Error.
Proof.
  pose proof (encodeURIComponent_outcome s) as Ho.
  destruct (encodeURIComponent s) as [r|e].
  - rewrite Ho. repeat split; try discriminate; eauto.
  - destruct Ho as [-> Hwf]. rewrite Hwf. repeat split; try discriminate.
    intros [r Hr]. discriminate Hr.
Qed.

(** X2.  [encodeURIComponent] returns its argument unchanged exactly when
    every unit of it is unreserved. *)
Theorem encodeURIComponent_fixed_iff_unreserved (s : js_string) :
  encodeURIComponent s = Normal s <-> forallb uri_unescaped s = true.
Proof.
  split.
  - intros Hs. apply (encodeURIComponent_grows s s Hs). reflexivity.
  - apply encodeURIComponent_unescaped.
Qed.

(** X3.  On sixteen-bit code units the encoded string is never shorter
    than the input and at most nine times as long. *)
Theorem encodeURIComponent_length (s r : js_string) :
  code_units s ->
  encodeURIComponent s = Normal r ->
  List.length s <= List.length r <= 9 * List.length s.
Proof.
  intros H16 Hr. split.
  - apply (encodeURIComponent_grows s r Hr).
  - apply (encodeURIComponent_at_most s H16 r Hr).
Qed.

Lemma encodeURIComponent_length_witness :
  List.length [8364%N] <= List.length (lit "%E2%82%AC")
  <= 9 * List.length [8364%N].
Proof.
  apply (encodeURIComponent_length [8364%N] (lit "%E2%82%AC")).
  - repeat constructor.
  - reflexivity.
Defined.

Lemma uri_component_unit_plain (c : code_unit) :
  uri_component_unit c = true ->
  c <> 38%N /\ c <> 61%N /\ c <> 63%N /\ c <> 35%N /\ c <> 47%N
  /\ c <> 58%N /\ is_white_space c = false /\ (c < 128)%N.
Proof.
  unfold uri_component_unit, uri_unescaped, is_alnum, is_white_space.
  intros Hc. bool_to_prop. lia.
Qed.

(** X4.  On sixteen-bit code units every unit of the encoded string is an
    unreserved character or the percent sign: the result is ASCII and holds
    no ['&'], ['='], ['?'], ['#'], ['/'], [':'] and no whitespace. *)
Theorem encodeURIComponent_alphabet (s r : js_string) :
  code_units s ->
  encodeURIComponent s = Normal r ->
  forall c, In c r ->
    uri_component_unit c = true
    /\ c <> 38%N /\ c <> 61%N /\ c <> 63%N /\ c <> 35%N /\ c <> 47%N
    /\ c <> 58%N /\ is_white_space c = false /\ (c < 128)%N.
Proof.
  intros H16 Hr c Hc.
  pose proof (encodeURIComponent_units s H16 r Hr) as Hall.
  rewrite forallb_forall in Hall. specialize (Hall c Hc).
  split; [exact Hall | apply uri_component_unit_plain, Hall].
Qed.

Lemma encodeURIComponent_alphabet_witness :
  uri_component_unit 37%N = true
  /\ 37%N <> 38%N /\ 37%N <> 61%N /\ 37%N <> 63%N /\ 37%N <> 35%N
  /\ 37%N <> 47%N /\ 37%N <> 58%N /\ is_white_space 37%N = false
  /\ (37 < 128)%N.
Proof.
  apply (encodeURIComponent_alphabet (lit "a&b ") (lit "a%26b%20")).
  - repeat constructor.
  - reflexivity.
  - right. left. reflexivity.
Defined.

(** X5.  Encoding distributes over concatenation behind a string without
    unpaired surrogate: the result for [s ++ t] is the result for [s]
    followed by the result for [t], and it throws when either does. *)
Theorem encodeURIComponent_concat (s t : js_string) :
  isWellFormed s = true ->
  encodeURIComponent (s ++ t) =
  (r <- encodeURIComponent s ;;
   r' <- encodeURIComponent t ;;
   Normal (r ++ r')).
Proof. intros Hwf. apply encodeURIComponent_app, Hwf. Qed.

Lemma encodeURIComponent_concat_witness :
  encodeURIComponent (lit "a b" ++ [8364%N]) =
  (r <- encodeURIComponent (lit "a b") ;;
   r' <- encodeURIComponent [8364%N] ;;
   Normal (r ++ r')).
Proof.
  apply (encodeURIComponent_concat (lit "a b") [8364%N]). reflexivity.
Defined.

(** ** More on the Encoder and the Validator *)

Lemma count_unit_app (c : code_unit) (s t : js_string) :
  count_unit c (s ++ t) = count_unit c s + count_unit c t.
Proof. unfold count_unit. rewrite filter_app, length_app. reflexivity. Qed.

Lemma count_unit_absent (c : code_unit) (s : js_string) :
  uri_component_unit c = false ->
  forallb uri_component_unit s = true ->
  count_unit c s = 0.
Proof.
  intros Hc. unfold count_unit.
  induction s as [|a s IH]; [reflexivity|].
  cbn [forallb filter]. intros [Ha Hs]%andb_true_iff.
  destruct (N.eqb_spec c a) as [-> | Hne]; [congruence | exact (IH Hs)].
Qed.

(** X6.  For sixteen-bit subject and body without unpaired surrogate, the
    text behind ['mailto:'] and the address holds one ['?'] when subject or
    body is non-empty, one ['&'] when both are, and one ['='] for each of
    them that is non-empty, whatever characters they are made of. *)
Theorem encode_email_query_shape (data : FormData) :
  code_units (value_of (emailSubject data)) ->
  code_units (value_of (emailBody data)) ->
  isWellFormed (value_of (emailSubject data)) = true ->
  isWellFormed (value_of (emailBody data)) = true ->
  exists query,
    generateQRContent (Some Email) data =
    Normal (lit "mailto:" ++ value_of (email data) ++ query)
    /\ count_unit 63%N query =
       (if truthy (value_of (emailSubject data))
           || truthy (value_of (emailBody data)) then 1 else 0)
    /\ count_unit 38%N query =
       (if truthy (value_of (emailSubject data))
           && truthy (value_of (emailBody data)) then 1 else 0)
    /\ count_unit 61%N query =
       (if truthy (value_of (emailSubject data)) then 1 else 0)
       + (if truthy (value_of (emailBody data)) then 1 else 0).
Proof.
  intros Hs16 Hb16 Hs Hb.
  destruct (generateQRContent_email_returns data Hs Hb)
    as (subject' & body' & Es & Eb & Hgen).
  exists (mailto_query (value_of (emailSubject data))
            (value_of (emailBody data)) subject' body').
  split; [exact Hgen|].
  pose proof (encodeURIComponent_units _ Hs16 _ Es) as Us.
  pose proof (encodeURIComponent_units _ Hb16 _ Eb) as Ub.
  assert (Hzero : forall c r,
            uri_component_unit c = false ->
            forallb uri_component_unit r = true -> count_unit c r = 0)
    by apply count_unit_absent.
  destruct (value_of (emailSubject data)), (value_of (emailBody data));
    cbn [truthy orb andb mailto_query];
    rewrite ?count_unit_app,
      ?(Hzero 63%N subject'), ?(Hzero 38%N subject'), ?(Hzero 61%N subject'),
      ?(Hzero 63%N body'), ?(Hzero 38%N body'), ?(Hzero 61%N body')
      by (reflexivity || assumption);
    repeat split; reflexivity.
Qed.

Lemma encode_email_query_shape_witness :
  exists query,
    generateQRContent (Some Email) form_email_subject =
    Normal (lit "mailto:" ++ value_of (email form_email_subject) ++ query)
    /\ count_unit 63%N query =
       (if truthy (value_of (emailSubject form_email_subject))
           || truthy (value_of (emailBody form_email_subject))
        then 1 else 0)
    /\ count_unit 38%N query =
       (if truthy (value_of (emailSubject form_email_subject))
           && truthy (value_of (emailBody form_email_subject))
        then 1 else 0)
    /\ count_unit 61%N query =
       (if truthy (value_of (emailSubject form_email_subject)) then 1 else 0)
       + (if truthy (value_of (emailBody form_email_subject)) then 1 else 0).
Proof.
  apply (encode_email_query_shape form_email_subject).
  - repeat constructor.
  - repeat constructor.
  - reflexivity.
  - reflexivity.
Defined.

Lemma without_length_mono (f g : code_unit -> bool) (s : js_string) :
  (forall c, f c = true -> g c = true) ->
  List.length (without g s) <= List.length (without f s).
Proof.
  intros Hfg. unfold without. induction s as [|c s IH]; [reflexivity|].
  cbn [filter]. destruct (f c) eqn:Hf.
  - rewrite (Hfg c Hf). exact IH.
  - destruct (g c); cbn [negb List.length]; lia.
Qed.

Lemma without_absorb (f g : code_unit -> bool) (s : js_string) :
  (forall c, f c = true -> g c = true) ->
  without g (without f s) = without g s.
Proof.
  intros Hfg. unfold without. induction s as [|c s IH]; [reflexivity|].
  cbn [filter]. destruct (f c) eqn:Hf; cbn [negb].
  - rewrite (Hfg c Hf). exact IH.
  - cbn [filter]. rewrite IH. reflexivity.
Qed.

Lemma white_space_is_separator (c : code_unit) :
  is_white_space c = true ->
  is_white_space c || is_hyphen c || is_paren c = true.
Proof. intros ->. reflexivity. Qed.

(** X7.  A phone value the validator accepts yields a payload ['tel:']
    followed by at least ten units, none of them whitespace. *)
Theorem validated_phone_payload (data : FormData) :
  validateInput (Some Phone) data = true ->
  exists number,
    generateQRContent (Some Phone) data = Normal (lit "tel:" ++ number)
    /\ 10 <= List.length number
    /\ (forall c, In c number -> is_white_space c = false).
Proof.
  intros Hvalid. apply validate_phone_rule in Hvalid.
  exists (without is_white_space (value_of (phone data))).
  split; [apply generateQRContent_phone|]. split.
  - etransitivity; [exact Hvalid|].
    apply without_length_mono, white_space_is_separator.
  - intros c Hc. apply without_clean in Hc. apply Hc.
Qed.

Lemma validated_phone_payload_witness :
  exists number,
    generateQRContent (Some Phone)
      (set_field f_phone (lit "(123) 456-7890") emptyForm)
    = Normal (lit "tel:" ++ number)
    /\ 10 <= List.length number
    /\ (forall c, In c number -> is_white_space c = false).
Proof.
  apply (validated_phone_payload
           (set_field f_phone (lit "(123) 456-7890") emptyForm)).
  reflexivity.
Defined.

(** X8.  Removing the whitespace of the phone value beforehand changes
    neither the validator's verdict nor the payload. *)
Theorem phone_whitespace_irrelevant (p : js_string) (data : FormData) :
  validateInput (Some Phone)
    (set_field f_phone (without is_white_space p) data)
  = validateInput (Some Phone) (set_field f_phone p data)
  /\ generateQRContent (Some Phone)
       (set_field f_phone (without is_white_space p) data)
     = generateQRContent (Some Phone) (set_field f_phone p data).
Proof.
  split.
  - apply eq_true_iff_eq. rewrite !validate_phone_rule.
    cbn [phone set_field value_of].
    rewrite (without_absorb is_white_space _ p white_space_is_separator).
    reflexivity.
  - rewrite !generateQRContent_phone. cbn [phone set_field value_of].
    rewrite (without_absorb is_white_space is_white_space p); auto.
Qed.

(** X9.  The Wifi payload does not determine the record: because nothing
    is escaped, moving a [';P:'] between the network name and the password
    gives the same payload. *)
Theorem encode_wifi_not_injective (a b c : js_string) (data : FormData) :
  generateQRContent (Some Wifi)
    (set_field f_password c
       (set_field f_ssid (a ++ lit ";P:" ++ b) data))
  = generateQRContent (Some Wifi)
      (set_field f_password (b ++ lit ";P:" ++ c)
         (set_field f_ssid a data))
  /\ a ++ lit ";P:" ++ b <> a.
Proof.
  split.
  - rewrite !generateQRContent_wifi.
    cbn [ssid password hidden set_field value_of].
    f_equal. rewrite <- !app_assoc. reflexivity.
  - intros Heq. apply (f_equal (@List.length code_unit)) in Heq.
    rewrite !length_app in Heq. cbn in Heq. lia.
Qed.

(** X10.  Only the Email branch can throw: for every other selection the
    encoder returns, with the text verbatim for Text and the empty string
    for an unset type. *)
Theorem encode_returns_outside_email (type : QRChoice) (data : FormData) :
  type <> Some Email ->
  (exists s, generateQRContent type data = Normal s)
  /\ (type = Some Text ->
      generateQRContent type data = Normal (value_of (text data)))
  /\ (type = None -> generateQRContent type data = Normal []).
Proof.
  intros Hne. destruct type as [[| | | |]|]; try contradiction;
    (split; [eexists; reflexivity|]); split; try discriminate;
    intros _; try reflexivity.
  unfold generateQRContent. rewrite or_else_empty. reflexivity.
Qed.

Lemma encode_returns_outside_email_witness :
  (exists s, generateQRContent (Some Text)
               (set_field f_text [55296%N] emptyForm) = Normal s)
  /\ (Some Text = Some Text ->
      generateQRContent (Some Text) (set_field f_text [55296%N] emptyForm)
      = Normal (value_of (text (set_field f_text [55296%N] emptyForm))))
  /\ (Some Text = None ->
      generateQRContent (Some Text) (set_field f_text [55296%N] emptyForm)
      = Normal []).
Proof.
  apply (encode_returns_outside_email (Some Text)). discriminate.
Defined.

(** ** The rendered inputs *)

Lemma rendered_raises (type : QRChoice) (data : FormData) (e : ChangeEvent) :
  rendered type e = existsb (fun i => raises i e)
                      (renderDynamicInputs type data).
Proof.
  destruct type as [[| | | |]|], e as [[| | | | | | |] value|checked];
    reflexivity.
Qed.

Lemma to_boolean_or_else (x : option js_string) :
  to_boolean x = truthy (or_else x []).
Proof. destruct x as [[|c s]|]; reflexivity. Qed.

Lemma validate_email_shown (data : FormData) :
  validateInput (Some Email) data
  = truthy (or_else (email data) [])
    && includes (or_else (email data) []) (lit "@").
Proof. cbn. destruct (email data) as [[|c s]|]; reflexivity. Qed.

Lemma validate_phone_shown (data : FormData) :
  validateInput (Some Phone) data
  = truthy (or_else (phone data) [])
    && (10 <=? List.length
                 (replace_class_g is_space_hyphen_paren []
                    (or_else (phone data) []))).
Proof.
  unfold validateInput. destruct (phone data) as [[|c s]|]; reflexivity.
Qed.

(** X11.  The validator and the encoder see the record only through what
    the rendered inputs show: two records that render the same inputs for
    the selected type get the same verdict and the same payload. *)
Theorem inputs_determine_result (type : QRChoice) (d d' : FormData) :
  renderDynamicInputs type d = renderDynamicInputs type d' ->
  validateInput type d = validateInput type d'
  /\ generateQRContent type d = generateQRContent type d'.
Proof.
  destruct type as [[| | | |]|]; cbn [renderDynamicInputs]; intros Hsame.
  - injection Hsame as Hu. split.
    + cbn [validateInput]. rewrite !to_boolean_or_else, Hu. reflexivity.
    + unfold generateQRContent. rewrite Hu. reflexivity.
  - injection Hsame as Hu. split.
    + cbn [validateInput]. rewrite !to_boolean_or_else, Hu. reflexivity.
    + unfold generateQRContent. rewrite Hu. reflexivity.
  - injection Hsame as He Hs Hb. split.
    + rewrite !validate_email_shown, He. reflexivity.
    + unfold generateQRContent. rewrite He, Hs, Hb. reflexivity.
  - injection Hsame as Hs Hp Hh. split.
    + cbn [validateInput]. rewrite !to_boolean_or_else, Hs. reflexivity.
    + unfold generateQRContent. rewrite Hs, Hp, Hh. reflexivity.
  - injection Hsame as Hp. split.
    + rewrite !validate_phone_shown, Hp. reflexivity.
    + unfold generateQRContent. rewrite Hp. reflexivity.
  - split; reflexivity.
Qed.

Lemma inputs_determine_result_witness :
  validateInput (Some Url) (set_field f_ssid (lit "Home") form_url_bare)
  = validateInput (Some Url) form_url_bare
  /\ generateQRContent (Some Url)
       (set_field f_ssid (lit "Home") form_url_bare)
     = generateQRContent (Some Url) form_url_bare.
Proof.
  apply (inputs_determine_result (Some Url)). reflexivity.
Defined.

(** X12.  In a record the validator accepts, every rendered input that is
    marked [required] shows a non-empty value. *)
Theorem validated_required_filled (type : QRChoice) (data : FormData) :
  validateInput type data = true ->
  Forall filled_if_required (renderDynamicInputs type data).
Proof.
  destruct type as [[| | | |]|]; cbn [renderDynamicInputs].
  - cbn [validateInput]. rewrite to_boolean_or_else, truthy_nonempty.
    intros Hne. repeat constructor. exact Hne.
  - cbn [validateInput]. rewrite to_boolean_or_else, truthy_nonempty.
    intros Hne. repeat constructor. exact Hne.
  - rewrite validate_email_shown.
    intros [Hne _]%andb_true_iff. apply truthy_nonempty in Hne.
    repeat constructor. exact Hne.
  - cbn [validateInput]. rewrite to_boolean_or_else, truthy_nonempty.
    intros Hne. repeat constructor. exact Hne.
  - rewrite validate_phone_shown.
    intros [Hne _]%andb_true_iff. apply truthy_nonempty in Hne.
    repeat constructor. exact Hne.
  - discriminate.
Qed.

Lemma validated_required_filled_witness :
  Forall filled_if_required
    (renderDynamicInputs (Some Email) form_email_subject).
Proof.
  apply (validated_required_filled (Some Email) form_email_subject).
  reflexivity.
Defined.

(** ** The change handler *)

(** X13.  A text change stores the value under the input's name and
    nothing else: every other field, the checkbox, the selected type, the
    displayed output and the error are as before; a checkbox change stores
    [checked] and leaves every string field and the other cells alone. *)
Theorem handleInputChange_frame (st : State) :
  (forall name value,
      get_field name (formData (handleInputChange (TextChange name value) st))
      = Some value
      /\ (forall other,
            other <> name ->
            get_field other
              (formData (handleInputChange (TextChange name value) st))
            = get_field other (formData st))
      /\ hidden (formData (handleInputChange (TextChange name value) st))
         = hidden (formData st)
      /\ qrType (handleInputChange (TextChange name value) st) = qrType st
      /\ qrUrl (handleInputChange (TextChange name value) st) = qrUrl st
      /\ error (handleInputChange (TextChange name value) st) = error st)
  /\ (forall checked,
        hidden (formData (handleInputChange (CheckboxChange checked) st))
        = Some checked
        /\ (forall other,
              get_field other
                (formData (handleInputChange (CheckboxChange checked) st))
              = get_field other (formData st))
        /\ qrType (handleInputChange (CheckboxChange checked) st)
           = qrType st
        /\ qrUrl (handleInputChange (CheckboxChange checked) st) = qrUrl st
        /\ error (handleInputChange (CheckboxChange checked) st)
           = error st).
Proof.
  split.
  - intros name value.
    destruct name; (split; [reflexivity|]);
      (split; [|repeat split]);
      intros other Hother; destruct other; try reflexivity; contradiction.
  - intros checked. split; [reflexivity|]. split; [|repeat split].
    intros other. destruct other; reflexivity.
Qed.

(** X14.  Of two changes of one input the later wins, and changes of
    different inputs can be made in either order. *)
Theorem handleInputChange_compose (st : State) (n m : FieldName)
    (v w : js_string) (b : bool) :
  handleInputChange (TextChange n w) (handleInputChange (TextChange n v) st)
  = handleInputChange (TextChange n w) st
  /\ (n <> m ->
      handleInputChange (TextChange m w)
        (handleInputChange (TextChange n v) st)
      = handleInputChange (TextChange n v)
          (handleInputChange (TextChange m w) st))
  /\ handleInputChange (CheckboxChange b)
       (handleInputChange (TextChange n v) st)
     = handleInputChange (TextChange n v)
         (handleInputChange (CheckboxChange b) st).
Proof.
  split; [destruct n; reflexivity|]. split.
  - intros Hnm. destruct n, m; try reflexivity; contradiction.
  - destruct n; reflexivity.
Qed.

Lemma handleInputChange_compose_witness :
  handleInputChange (TextChange f_password (lit "pw"))
    (handleInputChange (TextChange f_ssid (lit "Home")) initialState)
  = handleInputChange (TextChange f_ssid (lit "Home"))
      (handleInputChange (TextChange f_password (lit "pw")) initialState).
Proof.
  apply (proj1 (proj2 (handleInputChange_compose initialState f_ssid
                         f_password (lit "Home") (lit "pw") true))).
  discriminate.
Defined.

(** ** More on generate attempts *)

(** X15.  Repeating an attempt with the same renderer changes nothing: the
    second attempt leaves the state of the first and makes the same
    calls. *)
Theorem submit_idempotent (toDataURL : Renderer) (st : State) :
  submit toDataURL (fst (submit toDataURL st)) = submit toDataURL st.
Proof.
  destruct (qrType st) as [t|] eqn:Ht.
  2:{ rewrite (submit_unset toDataURL st Ht). cbn [fst].
      apply submit_unset, Ht. }
  destruct (validateInput (qrType st) (formData st)) eqn:Hv.
  2:{ rewrite (submit_rejected toDataURL st t Ht Hv). cbn [fst].
      exact (submit_rejected toDataURL (with_error msg_invalid st) t Ht Hv). }
  destruct (generateQRContent (qrType st) (formData st))
    as [content|e] eqn:Hg.
  2:{ rewrite (submit_encode_throws toDataURL st t e Ht Hv Hg). cbn [fst].
      exact (submit_encode_throws toDataURL (with_error msg_failed st) t e
               Ht Hv Hg). }
  destruct (toDataURL content renderOptions) as [u|e] eqn:Hr.
  - rewrite (submit_success toDataURL st t content u Ht Hv Hg Hr).
    cbn [fst].
    exact (submit_success toDataURL (with_error [] (with_qrUrl u st)) t
             content u Ht Hv Hg Hr).
  - rewrite (submit_render_throws toDataURL st t content e Ht Hv Hg Hr).
    cbn [fst].
    exact (submit_render_throws toDataURL (with_error msg_failed st) t
             content e Ht Hv Hg Hr).
Qed.

(** X16.  An attempt calls the renderer at most once, and only with the
    fixed options and the string the encoder returned for a record the
    validator accepted; with a type selected the validator is what it calls
    first, and with none it calls nothing. *)
Theorem submit_call_protocol (toDataURL : Renderer) (st : State) :
  List.length (filter is_render_call (snd (submit toDataURL st))) <= 1
  /\ (forall content opts,
        In (CallRender content opts) (snd (submit toDataURL st)) ->
        opts = renderOptions
        /\ validateInput (qrType st) (formData st) = true
        /\ generateQRContent (qrType st) (formData st) = Normal content)
  /\ (qrType st <> None ->
      exists rest,
        snd (submit toDataURL st)
        = CallValidate (qrType st) (formData st) :: rest)
  /\ (qrType st = None -> snd (submit toDataURL st) = []).
Proof.
  destruct (submit_cases toDataURL st) as [Hu | Hsel Hv | e Hsel Hv Hg
                                           | c e Hsel Hv Hg Hr
                                           | c u Hsel Hv Hg Hr];
    cbn [snd filter is_render_call List.length In];
    (split; [lia|]); (split; [intros content opts Hin|]).
  - contradiction.
  - split; [intros Hsel; contradiction | reflexivity].
  - destruct Hin as [Hin | []]; discriminate Hin.
  - split; [eauto | intros Hn; contradiction].
  - destruct Hin as [Hin | [Hin | [Hin | []]]]; discriminate Hin.
  - split; [eauto | intros Hn; contradiction].
  - destruct Hin as [Hin | [Hin | [Hin | [Hin | []]]]];
      try discriminate Hin.
    injection Hin as <- <-. auto.
  - split; [eauto | intros Hn; contradiction].
  - destruct Hin as [Hin | [Hin | [Hin | []]]]; try discriminate Hin.
    injection Hin as <- <-. auto.
  - split; [eauto | intros Hn; contradiction].
Qed.

(** X17.  When the encoder throws (an Email record with an unpaired
    surrogate in subject or body) the attempt shows ['Failed to generate QR
    code'], logs the [URIError] and never reaches the renderer; the
    displayed output is left as it was. *)
Theorem submit_encoder_failure (toDataURL : Renderer) (st : State) :
  qrType st = Some Email ->
  validateInput (qrType st) (formData st) = true ->
  isWellFormed (value_of (emailSubject (formData st))) = false
  \/ isWellFormed (value_of (emailBody (formData st))) = false ->
  submit toDataURL st =
  (with_error msg_failed st,
   [CallValidate (qrType st) (formData st);
    CallEncode (qrType st) (formData st);
    CallConsoleError URIError]).
Proof.
  intros Ht Hv Hwf.
  apply (submit_encode_throws toDataURL st Email URIError Ht Hv).
  rewrite Ht. apply generateQRContent_email_throws, Hwf.
Qed.

Lemma submit_encoder_failure_witness :
  submit renderer_ok state_email_lone_surrogate =
  (with_error msg_failed state_email_lone_surrogate,
   [CallValidate (qrType state_email_lone_surrogate)
      (formData state_email_lone_surrogate);
    CallEncode (qrType state_email_lone_surrogate)
      (formData state_email_lone_surrogate);
    CallConsoleError URIError]).
Proof.
  apply (submit_encoder_failure renderer_ok state_email_lone_surrogate).
  - reflexivity.
  - reflexivity.
  - left. reflexivity.
Defined.

(** X18.  With a type selected, an attempt ends without an error message
    exactly when the validator accepted, the encoder returned and the
    renderer succeeded; in every other case a message is displayed. *)
Theorem submit_error_iff_failed (toDataURL : Renderer) (st : State) :
  qrType st <> None ->
  (error (fst (submit toDataURL st)) = [] <->
   exists content u,
     validateInput (qrType st) (formData st) = true
     /\ generateQRContent (qrType st) (formData st) = Normal content
     /\ toDataURL content renderOptions = Normal u
     /\ qrUrl (fst (submit toDataURL st)) = u)
  /\ (error (fst (submit toDataURL st)) <> [] ->
      error_displayed (fst (submit toDataURL st)) = true
      /\ qrUrl (fst (submit toDataURL st)) = qrUrl st).
Proof.
  intros Hsel.
  destruct (submit_cases toDataURL st) as [Hu | _ Hv | e _ Hv Hg
                                           | c e _ Hv Hg Hr
                                           | c u _ Hv Hg Hr];
    cbn [fst with_error with_qrUrl error qrUrl error_displayed].
  - contradiction.
  - split; [|intros _; split; reflexivity].
    split; [discriminate|]. intros (c & u & Hv' & _). congruence.
  - split; [|intros _; split; reflexivity].
    split; [discriminate|]. intros (c & u & _ & Hg' & _). congruence.
  - split; [|intros _; split; reflexivity].
    split; [discriminate|]. intros (c' & u & _ & Hg' & Hr' & _). congruence.
  - split; [|intros Hne; contradiction].
    split; [|reflexivity]. intros _. exists c, u. auto.
Qed.

Lemma submit_error_iff_failed_witness :
  (error (fst (submit renderer_fails state_with_output)) = [] <->
   exists content u,
     validateInput (qrType state_with_output) (formData state_with_output)
     = true
     /\ generateQRContent (qrType state_with_output)
          (formData state_with_output) = Normal content
     /\ renderer_fails content renderOptions = Normal u
     /\ qrUrl (fst (submit renderer_fails state_with_output)) = u)
  /\ (error (fst (submit renderer_fails state_with_output)) <> [] ->
      error_displayed (fst (submit renderer_fails state_with_output)) = true
      /\ qrUrl (fst (submit renderer_fails state_with_output))
         = qrUrl state_with_output).
Proof.
  apply (submit_error_iff_failed renderer_fails state_with_output).
  discriminate.
Defined.

(** X19.  An attempt made right after selecting a type is rejected: the
    record is empty, so only the validator is called and the message
    ['Please fill in all required fields correctly'] is the whole visible
    result. *)
Theorem submit_after_select_rejected (toDataURL : Renderer) (t : QRType)
    (st : State) :
  submit toDataURL (selectType (Some t) st) =
  (mkState (Some t) emptyForm [] msg_invalid,
   [CallValidate (Some t) emptyForm]).
Proof.
  apply (submit_rejected toDataURL (selectType (Some t) st) t).
  - reflexivity.
  - apply validate_empty_form.
Qed.

(** ** Reachable states *)

Lemma submit_known_error (toDataURL : Renderer) (st : State) :
  known_error (error st) ->
  known_error (error (fst (submit toDataURL st))).
Proof.
  intros Hst. unfold known_error.
  destruct (submit_cases toDataURL st); cbn [fst with_error error]; tauto.
Qed.




(** X21.  In every reachable state the error cell is empty or holds one of
    the two messages of the submit handler. *)
Theorem reachable_known_error (c : Config) :
  reachable c -> known_error (error (cells c)).
Proof.
  induction 1 as [|c ev c' Hreach IH Hstep].
  - left. reflexivity.
  - destruct Hstep as [c v | c e He | c toDataURL | c n outcome Hn];
      cbn [cells].
    + left. reflexivity.
    + destruct e; exact IH.
    + unfold begin_submit.
      pose proof (submit_known_error toDataURL (cells c) IH) as Hs.
      rewrite submit_until_await_resume in Hs.
      destruct (handleSubmit_until_await (cells c)); cbn [cells fst] in *;
        [exact Hs | exact IH].
    + destruct outcome; cbn; unfold known_error; tauto.
Qed.

Lemma reachable_known_error_witness :
  known_error
    (error (cells (begin_submit renderer_fails
                     (mkConfig (selectType (Some Url) initialState) [])))).
Proof.
  apply (reachable_known_error
           (begin_submit renderer_fails
              (mkConfig (selectType (Some Url) initialState) []))).
  eapply reachable_step; [|apply step_submit].
  eapply reachable_step;
    [|apply (step_select initialConfig (Some Url))].
  apply reachable_init.
Defined.
